(** * Sentriex investment-fund controller: a shallow embedding

    The development follows the controller of the investment-fund API
    (subscribeToFund, redeemFromFund, cancelRequest,
    patchInvestmentFundRequest, activateRequest, fetchPerformance) and the
    error middleware of the server entry point.

    Layout:
    - [Number]      : JavaScript numbers (IEEE-754 binary64), as far as the
                      controller uses them ([1 - x], [parseFloat], the
                      conversion to a decimal string);
    - [BigNumber]   : bignumber.js values with its default configuration
                      (DECIMAL_PLACES = 20, ROUNDING_MODE = ROUND_HALF_UP);
    - the store (tables as lists of rows), the query monad and
      [transaction];
    - the handlers, one definition per exported function;
    - the theorems. *)

From Stdlib Require Import ZArith List String Ascii Bool Lia DecimalString.
Import ListNotations.
Local Open Scope string_scope.
Local Open Scope Z_scope.

(** ** Rationals as pairs of integers *)

(** [scale2 n d k] is the fraction [(n/d) / 2^k]. *)
Definition scale2 (n d k : Z) : Z * Z :=
  if 0 <=? k then (n, d * 2 ^ k) else (n * 2 ^ (- k), d).

(** [scale10 n d k] is the fraction [(n/d) / 10^k]. *)
Definition scale10 (n d k : Z) : Z * Z :=
  if 0 <=? k then (n, d * 10 ^ k) else (n * 10 ^ (- k), d).

(** Nearest integer to [n/d], ties to the even neighbour. *)
Definition round_half_even (n d : Z) : Z :=
  let q := n / d in
  match Z.compare (2 * (n mod d)) d with
  | Lt => q
  | Gt => q + 1
  | Eq => if Z.even q then q else q + 1
  end.

(** Nearest integer to [n/d], ties away from zero ([n >= 0], [d > 0]). *)
Definition round_half_up (n d : Z) : Z := (2 * n + d) / (2 * d).

(** ** JavaScript numbers *)

Module Number.

(** A finite value is [(-1)^neg * m * 2^e]; in canonical form
    [2^52 <= m < 2^53] and [-1074 <= e <= 971], or [m < 2^52] and
    [e = -1074] (subnormal numbers and the two zeros). *)
Inductive t :=
| NaN
| Infinity (neg : bool)
| Finite (neg : bool) (m : Z) (e : Z).

Definition emin : Z := -1074.
Definition emax : Z := 971.

Definition eqb (x y : t) : bool :=
  match x, y with
  | NaN, NaN => true
  | Infinity a, Infinity b => Bool.eqb a b
  | Finite a m e, Finite b m' e' => Bool.eqb a b && (m =? m') && (e =? e')
  | _, _ => false
  end.

(** [floor (log2 (n/d))] for positive [n], [d]. *)
Definition floor_log2 (n d : Z) : Z :=
  let l := Z.log2 n - Z.log2 d in
  let '(a, b) := scale2 n d l in
  if b <=? a then l else l - 1.

(** Round-to-nearest-even of the non-negative fraction [n/d]. *)
Definition of_ratio (neg : bool) (n d : Z) : t :=
  if n =? 0 then Finite neg 0 emin
  else
    let e := Z.max (floor_log2 n d - 52) emin in
    let '(a, b) := scale2 n d e in
    let m := round_half_even a b in
    let '(m, e) := if m =? 2 ^ 53 then (2 ^ 52, e + 1) else (m, e) in
    if emax <? e then Infinity neg else Finite neg m e.

(** The number nearest to [m * 2^e], and to [c * 10^e]. *)
Definition of_dyadic (neg : bool) (m e : Z) : t :=
  of_ratio neg (m * 2 ^ Z.max e 0) (2 ^ Z.max (- e) 0).

Definition of_decimal (neg : bool) (c e : Z) : t :=
  of_ratio neg (c * 10 ^ Z.max e 0) (10 ^ Z.max (- e) 0).

Definition of_Z (z : Z) : t := of_dyadic (z <? 0) (Z.abs z) 0.

Definition signed (neg : bool) (m : Z) : Z := if neg then - m else m.

(** The [-] operator on numbers. *)
Definition sub (x y : t) : t :=
  match x, y with
  | NaN, _ | _, NaN => NaN
  | Infinity a, Infinity b => if Bool.eqb a b then NaN else Infinity a
  | Infinity a, Finite _ _ _ => Infinity a
  | Finite _ _ _, Infinity b => Infinity (negb b)
  | Finite a m1 e1, Finite b m2 e2 =>
      let e := Z.min e1 e2 in
      let z := signed a m1 * 2 ^ (e1 - e) - signed b m2 * 2 ^ (e2 - e) in
      if z =? 0 then Finite (a && negb b) 0 emin
      else of_dyadic (z <? 0) (Z.abs z) e
  end.

Definition is_zero (x : t) : bool :=
  match x with Finite _ m _ => m =? 0 | _ => false end.

Definition is_nan (x : t) : bool :=
  match x with NaN => true | _ => false end.

(** Sign of a number as the sort comparator sees it: [NaN] counts as 0. *)
Definition sign (x : t) : comparison :=
  match x with
  | NaN => Eq
  | Infinity neg => if neg then Lt else Gt
  | Finite neg m _ => if m =? 0 then Eq else if neg then Lt else Gt
  end.

(** [floor (log10 (n/d))] for positive [n], [d]. *)
Fixpoint ilog10_ge (fuel : nat) (n d acc : Z) : Z :=
  match fuel with
  | O => acc
  | S f => if d * 10 <=? n then ilog10_ge f n (d * 10) (acc + 1) else acc
  end.

Fixpoint ilog10_lt (fuel : nat) (n d acc : Z) : Z :=
  match fuel with
  | O => acc
  | S f => if d <=? n then acc else ilog10_lt f (n * 10) d (acc - 1)
  end.

Definition floor_log10 (n d : Z) : Z :=
  if d <=? n then ilog10_ge (S (Z.to_nat (Z.log2 n))) n d 0
  else ilog10_lt (S (S (Z.to_nat (Z.log2 d)))) n d 0.

(** Number::toString picks the digits [s] and the exponent so that
    [s * 10^p] converts back to the number, with as few digits as
    possible and, among those, nearest to the number. [shortest_at] tries
    [k] digits: the two [k]-digit neighbours of [n/d]. *)
Definition shortest_at (x : t) (n d E k : Z) : option (Z * Z) :=
  let p := E - k + 1 in
  let '(a, b) := scale10 n d p in
  let lo := a / b in
  let hi := lo + 1 in
  let back s := eqb (of_decimal false s p) x in
  match back lo, back hi with
  | true, true =>
      Some (match Z.compare (2 * (a mod b)) b with
            | Lt => lo
            | Gt => hi
            | Eq => if Z.even lo then lo else hi
            end, p)
  | true, false => Some (lo, p)
  | false, true => Some (hi, p)
  | false, false => None
  end.

Fixpoint shortest_from (fuel : nat) (x : t) (n d E k : Z) : option (Z * Z) :=
  match fuel with
  | O => None
  | S f =>
      match shortest_at x n d E k with
      | Some r => Some r
      | None => shortest_from f x n d E (k + 1)
      end
  end.

(** Digits and decimal exponent of the positive number [m * 2^e]:
    seventeen digits always suffice; the last branch is the exact
    expansion. *)
Definition to_decimal (m e : Z) : Z * Z :=
  let n := m * 2 ^ Z.max e 0 in
  let d := 2 ^ Z.max (- e) 0 in
  match shortest_from 17 (Finite false m e) n d (floor_log10 n d) 1 with
  | Some r => r
  | None => if 0 <=? e then (n, 0) else (m * 5 ^ (- e), e)
  end.

End Number.

(** ** Decimal literals *)

Definition digit (c : ascii) : option Z :=
  let n := Z.of_nat (nat_of_ascii c) in
  if (48 <=? n) && (n <=? 57) then Some (n - 48) else None.

(** Reads the longest run of digits: its value on top of [acc], its
    length on top of [cnt], and the rest of the string. *)
Fixpoint digits (s : string) (acc cnt : Z) : Z * Z * string :=
  match s with
  | String c r =>
      match digit c with
      | Some v => digits r (acc * 10 + v) (cnt + 1)
      | None => (acc, cnt, s)
      end
  | EmptyString => (acc, cnt, s)
  end.

(** [-?(digits(.digits?)?|.digits)(e[+-]?digits)?] as sign, coefficient
    and decimal exponent. This is the numeric syntax that both
    [new BigNumber(string)] and the conversion of a string to a number
    accept; a numeric column read through the driver has this form. *)
Definition parse_decimal (s : string) : option (bool * Z * Z) :=
  let '(neg, s) :=
    match s with String "-" r => (true, r) | _ => (false, s) end in
  let '(ip, ni, s) := digits s 0 0 in
  let '(c, nf, s) :=
    match s with
    | String "." r => digits r ip 0
    | _ => (ip, 0, s)
    end in
  if ni + nf =? 0 then None
  else
    match s with
    | EmptyString => Some (neg, c, - nf)
    | String ch r =>
        if (ch =? "e")%char || (ch =? "E")%char then
          let '(eneg, r) :=
            match r with
            | String "-" r' => (true, r')
            | String "+" r' => (false, r')
            | _ => (false, r)
            end in
          let '(ev, ne, r) := digits r 0 0 in
          if ne =? 0 then None
          else
            match r with
            | EmptyString => Some (neg, c, (if eneg then - ev else ev) - nf)
            | _ => None
            end
        else None
    end.

(** ** JavaScript values that reach the controller *)

Inductive JSValue :=
| JUndefined
| JNull
| JBool (b : bool)
| JNum (n : Number.t)
| JStr (s : string).

(** ToBoolean. *)
Definition truthy (v : JSValue) : bool :=
  match v with
  | JUndefined | JNull => false
  | JBool b => b
  | JNum n => negb (Number.is_zero n || Number.is_nan n)
  | JStr s => negb (s =? "")%string
  end.

(** [a || b]. *)
Definition js_or (a b : JSValue) : JSValue := if truthy a then a else b.

(** ToNumber. *)
Definition ToNumber (v : JSValue) : Number.t :=
  match v with
  | JUndefined => Number.NaN
  | JNull => Number.Finite false 0 Number.emin
  | JBool b => Number.of_Z (if b then 1 else 0)
  | JNum n => n
  | JStr s =>
      if (s =? "")%string then Number.Finite false 0 Number.emin
      else if (s =? "Infinity")%string then Number.Infinity false
      else if (s =? "-Infinity")%string then Number.Infinity true
      else
        match parse_decimal s with
        | Some (neg, c, e) => Number.of_decimal neg c e
        | None => Number.NaN
        end
  end.

(** [a === b] (on numbers, [NaN] differs from itself and the zeros are
    equal). *)
Definition strict_eq (a b : JSValue) : bool :=
  match a, b with
  | JUndefined, JUndefined | JNull, JNull => true
  | JBool x, JBool y => Bool.eqb x y
  | JNum x, JNum y =>
      negb (Number.is_nan x) &&
      ((Number.is_zero x && Number.is_zero y) || Number.eqb x y)
  | JStr x, JStr y => (x =? y)%string
  | _, _ => false
  end.

(** ** bignumber.js values *)

Module BigNumber.

(** A finite value is [(-1)^neg * c * 10^e]; zero keeps its sign, as in
    the library. Values are built without trailing zeros in [c] (see
    [make]), so that equal values are equal terms. *)
Inductive t :=
| NaN
| Infinity (neg : bool)
| Finite (neg : bool) (c : N) (e : Z).

(** Library defaults. *)
Definition DECIMAL_PLACES : Z := 20.

Fixpoint strip (fuel : nat) (c e : Z) : Z * Z :=
  match fuel with
  | O => (c, e)
  | S f => if c mod 10 =? 0 then strip f (c / 10) (e + 1) else (c, e)
  end.

(** The value [c * 10^e] for [c >= 0]. *)
Definition make (neg : bool) (c e : Z) : t :=
  if c =? 0 then Finite neg 0 0
  else
    let '(c', e') := strip (S (Z.to_nat (Z.log2 c))) c e in
    Finite neg (Z.to_N c') e'.

Definition zero : t := Finite false 0 0.

Definition isZero (x : t) : bool :=
  match x with Finite _ c _ => (c =? 0)%N | _ => false end.

Definition isFinite (x : t) : bool :=
  match x with Finite _ _ _ => true | _ => false end.

(** [new BigNumber(n)] for a number: the value of [String(n)]. *)
Definition of_number (n : Number.t) : t :=
  match n with
  | Number.NaN => NaN
  | Number.Infinity neg => Infinity neg
  | Number.Finite neg m e =>
      if m =? 0 then Finite neg 0 0
      else let '(s, p) := Number.to_decimal m e in make neg s p
  end.

(** [new BigNumber(s)] for a string. *)
Definition of_string (s : string) : t :=
  if (s =? "Infinity")%string then Infinity false
  else if (s =? "-Infinity")%string then Infinity true
  else
    match parse_decimal s with
    | Some (neg, c, e) => make neg c e
    | None => NaN
    end.

(** [new BigNumber(v)]. *)
Definition of_js (v : JSValue) : t :=
  match v with
  | JNum n => of_number n
  | JStr s => of_string s
  | _ => NaN
  end.

Definition signed (neg : bool) (c : Z) : Z := if neg then - c else c.

(** Both coefficients at the smaller exponent. *)
Definition align (c1 e1 c2 e2 : Z) : Z * Z * Z :=
  let e := Z.min e1 e2 in
  (c1 * 10 ^ (e1 - e), c2 * 10 ^ (e2 - e), e).

Definition of_signed (zero_neg : bool) (z e : Z) : t :=
  if z =? 0 then Finite zero_neg 0 0 else make (z <? 0) (Z.abs z) e.

(** [x.plus(y)]; a zero sum is [-0] only for [-0 + -0]. *)
Definition plus (x y : t) : t :=
  match x, y with
  | NaN, _ | _, NaN => NaN
  | Infinity a, Infinity b => if Bool.eqb a b then Infinity a else NaN
  | Infinity a, Finite _ _ _ => Infinity a
  | Finite _ _ _, Infinity b => Infinity b
  | Finite a c1 e1, Finite b c2 e2 =>
      let '(z1, z2, e) := align (Z.of_N c1) e1 (Z.of_N c2) e2 in
    of_signed (a && b) (signed a z1 + signed b z2) e
  end.

(** [x.minus(y)]; a zero difference is [-0] only for [-0 - +0]. *)
Definition minus (x y : t) : t :=
  match x, y with
  | NaN, _ | _, NaN => NaN
  | Infinity a, Infinity b => if Bool.eqb a b then NaN else Infinity a
  | Infinity a, Finite _ _ _ => Infinity a
  | Finite _ _ _, Infinity b => Infinity (negb b)
  | Finite a c1 e1, Finite b c2 e2 =>
      let '(z1, z2, e) := align (Z.of_N c1) e1 (Z.of_N c2) e2 in
    of_signed (a && negb b) (signed a z1 - signed b z2) e
  end.

(** [x.times(y)]: exact. *)
Definition times (x y : t) : t :=
  match x, y with
  | NaN, _ | _, NaN => NaN
  | Infinity a, Infinity b => Infinity (xorb a b)
  | Infinity a, Finite b c _ | Finite a c _, Infinity b =>
      if (c =? 0)%N then NaN else Infinity (xorb a b)
| Finite a c1 e1, Finite b c2 e2 =>
    make (xorb a b) (Z.of_N c1 * Z.of_N c2) (e1 + e2)
  end.

(** [x.dividedBy(y)]: the quotient rounded half-up to [DECIMAL_PLACES]
    decimal places; a division by zero does not throw, it yields
    [NaN] (0 / 0) or an infinity. *)
Definition dividedBy (x y : t) : t :=
  match x, y with
  | NaN, _ | _, NaN => NaN
  | Infinity _, Infinity _ => NaN
  | Infinity a, Finite b _ _ => Infinity (xorb a b)
  | Finite a _ _, Infinity b => Finite (xorb a b) 0 0
  | Finite a c1 e1, Finite b c2 e2 =>
      if (c2 =? 0)%N then (if (c1 =? 0)%N then NaN else Infinity (xorb a b))
    else if (c1 =? 0)%N then Finite (xorb a b) 0 0
    else
      let '(n, d) :=
        scale10 (Z.of_N c1) (Z.of_N c2) (e2 - e1 - DECIMAL_PLACES) in
        make (xorb a b) (round_half_up n d) (- DECIMAL_PLACES)
  end.

(** [x.comparedTo(y)]: [None] stands for [null] (a [NaN] operand). *)
Definition comparedTo (x y : t) : option comparison :=
  match x, y with
  | NaN, _ | _, NaN => None
  | Infinity a, Infinity b =>
      Some (if a then (if b then Eq else Lt) else (if b then Gt else Eq))
  | Infinity a, Finite _ _ _ => Some (if a then Lt else Gt)
  | Finite _ _ _, Infinity b => Some (if b then Gt else Lt)
  | Finite a c1 e1, Finite b c2 e2 =>
      let '(z1, z2, _) := align (Z.of_N c1) e1 (Z.of_N c2) e2 in
    Some (Z.compare (signed a z1) (signed b z2))
  end.

Definition isLessThanOrEqualTo (x y : t) : bool :=
  match comparedTo x y with Some Lt | Some Eq => true | _ => false end.

Definition isGreaterThan (x y : t) : bool :=
  match comparedTo x y with Some Gt => true | _ => false end.

Definition digit_char (d : Z) : ascii := ascii_of_nat (48 + Z.to_nat d).

(** The [w] low decimal digits of [n], most significant first. *)
Fixpoint fixed_digits (w : nat) (n : Z) : string :=
  match w with
  | O => ""
  | S k =>
      String.append (fixed_digits k (n / 10))
                    (String (digit_char (n mod 10)) "")
  end.

Definition string_of_nat_Z (n : Z) : string :=
  NilEmpty.string_of_uint (N.to_uint (Z.to_N n)).

(** [x.toFixed(dp)]: rounded half-up to [dp] decimal places, in normal
    notation; the sign is that of the value before rounding. *)
Definition toFixed (dp : nat) (x : t) : string :=
  match x with
  | NaN => "NaN"
  | Infinity neg => if neg then "-Infinity" else "Infinity"
  | Finite neg c e =>
      let '(n, d) := scale10 (Z.of_N c) 1 (- (e + Z.of_nat dp)) in
      let u := round_half_up n d in
      let ip := u / 10 ^ Z.of_nat dp in
      let sgn := if neg && negb (c =? 0)%N then "-" else "" in
      let frac :=
        match dp with
        | O => ""
        | S _ => String.append "." (fixed_digits dp u)
        end in
      String.append sgn (String.append (string_of_nat_Z ip) frac)
  end.

(** [parseFloat(x)]: the number nearest to the value that [x.toString()]
    prints ([-0] prints as "0"). *)
Definition parseFloat (x : t) : Number.t :=
  match x with
  | NaN => Number.NaN
  | Infinity neg => Number.Infinity neg
  | Finite neg c e =>
      if (c =? 0)%N then Number.Finite false 0 Number.emin
    else Number.of_decimal neg (Z.of_N c) e
  end.

End BigNumber.

(** ** Tables *)

Definition Id := Z.

(** InvestmentFundRequest.statuses: the five states of a request. *)
Inductive RequestStatus :=
| PENDING_EMAIL_VERIFICATION
| PENDING
| APPROVED
| DECLINED
| CANCELED.

Definition status_eqb (a b : RequestStatus) : bool :=
  match a, b with
  | PENDING_EMAIL_VERIFICATION, PENDING_EMAIL_VERIFICATION
  | PENDING, PENDING
  | APPROVED, APPROVED
  | DECLINED, DECLINED
  | CANCELED, CANCELED => true
  | _, _ => false
  end.

Lemma status_eqb_eq a b : status_eqb a b = true <-> a = b.
Proof. destruct a, b; simpl; split; congruence. Qed.

Record InvestmentFund := mkInvestmentFund {
  fund_id : Id;
  fund_name : string;
  fund_currencyCode : string;
  fund_sharePrice : BigNumber.t;
  fund_balance : BigNumber.t;          (* pooled capital *)
  fund_updatedAt : Z
}.

Record InvestmentFundShares := mkInvestmentFundShares {
  shares_investmentFundId : Id;
  shares_userId : Id;
  shares_amount : BigNumber.t
}.

Record InvestmentFundRequest := mkInvestmentFundRequest {
  request_id : Id;
  request_investmentFundId : Id;
  request_userId : Id;
  request_type : string;
  request_amount : JSValue;
  request_requestPercent : JSValue;
  request_status : RequestStatus;
  request_refunded : bool;
  request_authenticationToken : string
}.

Record Balance := mkBalance {
  balance_id : Id;
  balance_userId : Id;
  balance_currencyCode : string;
  balance_amount : BigNumber.t
}.

Record InvestmentFundSettings := mkInvestmentFundSettings {
  userRedeemProfitPercent : JSValue
}.

Record Store := mkStore {
  investmentFunds : list InvestmentFund;
  investmentFundRequests : list InvestmentFundRequest;
  balances : list Balance;
  investmentFundShares : list InvestmentFundShares;
  investmentFundSettings : list InvestmentFundSettings
}.

Definition with_funds (l : list InvestmentFund) (db : Store) : Store :=
  mkStore l (investmentFundRequests db) (balances db)
          (investmentFundShares db) (investmentFundSettings db).

Definition with_requests (l : list InvestmentFundRequest) (db : Store) : Store :=
  mkStore (investmentFunds db) l (balances db)
          (investmentFundShares db) (investmentFundSettings db).

Definition with_balances (l : list Balance) (db : Store) : Store :=
  mkStore (investmentFunds db) (investmentFundRequests db) l
          (investmentFundShares db) (investmentFundSettings db).

Definition with_shares (l : list InvestmentFundShares) (db : Store) : Store :=
  mkStore (investmentFunds db) (investmentFundRequests db) (balances db)
          l (investmentFundSettings db).

(** [.where(p)] and [.first()]. *)
Definition where_ {A} (p : A -> bool) (rows : list A) : list A := filter p rows.

Definition first {A} (rows : list A) : option A :=
  match rows with
  | [] => None
  | r :: _ => Some r
  end.

(** A primary key: no two rows share an id. *)
Fixpoint unique_ids (ids : list Id) : bool :=
  match ids with
  | [] => true
  | i :: rest => negb (existsb (Z.eqb i) rest) && unique_ids rest
  end.

(** Stable insertion sort; [le x y] says that [x] may stand before [y]. *)
Fixpoint insert_sorted {A} (le : A -> A -> bool) (x : A) (l : list A) : list A :=
  match l with
  | [] => [x]
  | y :: t => if le x y then x :: l else y :: insert_sorted le x t
  end.

Definition sort_by {A} (le : A -> A -> bool) (l : list A) : list A :=
  fold_right (insert_sorted le) [] l.

(** ** Errors and responses *)

Inductive Stmt := InsertRequest | UpdateRequest | UpdateBalance | UpdateShares.

Inductive Exn :=
| AssertionError (message : string)   (* assert(value, message) *)
| TypeError (property : string)       (* read of a property of undefined, call of a non-function *)
| Error (message : string)            (* throw new Error(message) *)
| CannotCancelRequest
| CannotPatchRequest
| InsufficientFunds
| InsufficientFundCapital
| DatabaseError (stmt : Stmt).

Record PerformanceEntry := mkPerformanceEntry {
  entry_investmentFundId : Id;
  entry_investmentFundName : string;
  entry_currencyCode : string;
  entry_shares : BigNumber.t;
  entry_profitAmount : BigNumber.t;
  entry_initialInvestment : BigNumber.t;
  entry_investmentValue : BigNumber.t;
  entry_profitPercent : string
}.

(** The JSON bodies that the handlers send. *)
Inductive Body :=
| Failure (message : string)                   (* { success: false, message } *)
| Success                                      (* { success: true } *)
| SuccessRequest (request : InvestmentFundRequest)
| SuccessPerformance (performance : list PerformanceEntry).

Record Response := mkResponse { status : Z; body : Body }.

(** A handler either sends a response or rejects with an exception, which
    express-async-errors hands to the error middleware. *)
Inductive Outcome :=
| Responded (r : Response)
| Threw (e : Exn).

(** ** Queries *)

(** A query runs against the store and either rejects or returns a value
    and the store it leaves. *)
Definition Tx (A : Type) : Type := Store -> Exn + (A * Store).

Definition ret {A} (a : A) : Tx A := fun db => inr (a, db).

Definition bind {A B} (m : Tx A) (k : A -> Tx B) : Tx B :=
  fun db =>
    match m db with
    | inl e => inl e
    | inr (a, db') => k a db'
    end.

Definition throw {A} (e : Exn) : Tx A := fun _ => inl e.

Definition select {A} (q : Store -> A) : Tx A := fun db => inr (q db, db).

Declare Scope tx_scope.
Delimit Scope tx_scope with tx.
Notation "x <- m ;; k" := (bind m (fun x => k))
  (at level 61, m at next level, right associativity) : tx_scope.
Notation "m ;;; k" := (bind m (fun _ => k))
  (at level 61, right associativity) : tx_scope.

(** [transaction(knex, callback)]: commits what the callback wrote when it
    resolves, rolls everything back when it rejects. *)
Definition transaction {A} (callback : Tx A) (db : Store) : (Exn + A) * Store :=
  match callback db with
  | inl e => (inl e, db)
  | inr (a, db') => (inr a, db')
  end.

(** A query awaited outside a transaction commits on its own. *)
Definition await {A} (query : Tx A) (db : Store) : (Exn + A) * Store :=
  transaction query db.

(** [Promise.all([p, q])] for two queries of one transaction: both go to
    the transaction's connection, in this order, and the result rejects as
    soon as one of them does. *)
Definition Promise_all2 {A B} (p : Tx A) (q : Tx B) : Tx (A * B) :=
  (a <- p ;; b <- q ;; ret (a, b))%tx.

(** [assert(value, message)]. *)
Definition assert_some {A} (value : option A) (message : string) : Tx A :=
  match value with
  | Some a => ret a
  | None => throw (AssertionError message)
  end.

(** [const { property } = value]: a TypeError when [value] is undefined. *)
Definition destructure {A B} (value : option A) (property : string)
           (get : A -> B) : Tx B :=
  match value with
  | Some a => ret (get a)
  | None => throw (TypeError property)
  end.

(** ** What the database does on its own *)

Class Driver := {
  (** a statement that the database rejects (lost connection, lock
      timeout, violated constraint) *)
  stmt_fails : Stmt -> bool;
  (** the default of the id column of a new request *)
  generate_id : list InvestmentFundRequest -> Id
}.

Section Queries.
Context {driver : Driver}.

(** [investmentFund.$relatedQuery('requests').insert({...}).returning('*')] *)
Definition insert_request (investmentFund : InvestmentFund) (userId : Id)
           (type : string) (amount requestPercent : JSValue)
           (st : RequestStatus) : Tx InvestmentFundRequest :=
  fun db =>
    if stmt_fails InsertRequest then inl (DatabaseError InsertRequest)
    else
      let row :=
        {| request_id := generate_id (investmentFundRequests db);
           request_investmentFundId := fund_id investmentFund;
           request_userId := userId;
           request_type := type;
           request_amount := amount;
           request_requestPercent := requestPercent;
           request_status := st;
           request_refunded := false;
           request_authenticationToken := "" |} in
      inr (row, with_requests (investmentFundRequests db ++ [row]) db).

(** [request.$query().update(patch).returning('*')]: the rows with the
    id of [request] are patched; the patched row comes back. *)
Definition update_request (request : InvestmentFundRequest)
           (patch : InvestmentFundRequest -> InvestmentFundRequest)
  : Tx (option InvestmentFundRequest) :=
  fun db =>
    if stmt_fails UpdateRequest then inl (DatabaseError UpdateRequest)
    else
      let hit r := request_id r =? request_id request in
      inr (option_map patch (first (where_ hit (investmentFundRequests db))),
           with_requests
             (map (fun r => if hit r then patch r else r)
                  (investmentFundRequests db)) db).

Definition set_balance_amount (id : Id) (amount : BigNumber.t) (db : Store)
  : Store :=
  with_balances
    (map (fun b =>
            if balance_id b =? id
            then mkBalance (balance_id b) (balance_userId b)
                           (balance_currencyCode b) amount
            else b)
         (balances db)) db.

(** Modelled from the spec: Balance.remove, a method of the Balance model,
    which is not among the sources. "debit(balance, amount, txn): within
    the caller's transaction, re-reads the balance row with an exclusive
    lock, verifies amount <= currentAmount, and writes
    currentAmount - amount. Fails with InsufficientFunds if the check
    fails." *)
Definition Balance_remove (balance : Balance) (amount : JSValue) : Tx unit :=
  fun db =>
    match first (where_ (fun b => balance_id b =? balance_id balance)
                        (balances db)) with
    | None => inl (DatabaseError UpdateBalance)
    | Some current =>
        let amt := BigNumber.of_js amount in
        if negb (BigNumber.isLessThanOrEqualTo amt (balance_amount current))
        then inl InsufficientFunds
        else if stmt_fails UpdateBalance then inl (DatabaseError UpdateBalance)
        else inr (tt, set_balance_amount (balance_id balance)
                        (BigNumber.minus (balance_amount current) amt) db)
    end.

(** Modelled from the spec: Balance.add, a method of the Balance model,
    which is not among the sources. "credit(balance, amount, txn): locks
    the row, writes currentAmount + amount. Cannot fail except on the
    locking/transaction infrastructure." *)
Definition Balance_add (balance : Balance) (amount : JSValue) : Tx unit :=
  fun db =>
    match first (where_ (fun b => balance_id b =? balance_id balance)
                        (balances db)) with
    | None => inl (DatabaseError UpdateBalance)
    | Some current =>
        if stmt_fails UpdateBalance then inl (DatabaseError UpdateBalance)
        else inr (tt, set_balance_amount (balance_id balance)
                        (BigNumber.plus (balance_amount current)
                                        (BigNumber.of_js amount)) db)
    end.

End Queries.

(** ** The models behind the controller *)

(** The controller reads computed properties of a request and calls
    methods of a fund; the model classes are not among the sources, so
    the handlers take them as an interface. *)
Class Models := {
  (** InvestmentFundRequest.statuses, as the values a request body carries *)
  statuses : RequestStatus -> JSValue;
  (** computed properties of a request *)
  isCancelable : InvestmentFundRequest -> bool;
  refundable : InvestmentFundRequest -> bool;
  isLocked : InvestmentFundRequest -> bool;
  (** methods of a fund; each may reject and may write to the store *)
  approveSubscription :
    InvestmentFund -> InvestmentFundRequest -> Store -> option Exn * Store;
  declineSubscription :
    InvestmentFund -> InvestmentFundRequest -> Store -> option Exn * Store;
  approveRedemption :
    InvestmentFund -> InvestmentFundRequest -> Store -> option Exn * Store;
  declineRedemption :
    InvestmentFund -> InvestmentFundRequest -> Store -> option Exn * Store;
  calculateTotalProfitAmount :
    InvestmentFund -> Id -> Store -> Exn + BigNumber.t;
  (** the status that the BadRequest base class carries, if any *)
  BadRequest_status : option Z
}.

Record User := mkUser { user_id : Id; user_twofa : bool }.

Definition json (code : Z) (b : Body) : Response := mkResponse code b.

(** ** The error middleware of the server *)

Record ErrorReply := mkErrorReply {
  reply_status : Z;
  reply_message : string;
  reply_code : JSValue
}.

Section ErrorMiddleware.
Context {models : Models}.

Definition err_status (e : Exn) : option Z :=
  match e with
  | CannotCancelRequest | CannotPatchRequest => BadRequest_status
  | _ => None
  end.

(** [get code()] of the two request errors; Node gives an assertion
    failure the code ERR_ASSERTION. *)
Definition err_code (e : Exn) : JSValue :=
  match e with
  | CannotCancelRequest => JNum (Number.of_Z 48)
  | CannotPatchRequest => JNum (Number.of_Z 52)
  | AssertionError _ => JStr "ERR_ASSERTION"
  | _ => JUndefined
  end.

Definition err_message (e : Exn) : string :=
  match e with
  | CannotCancelRequest => "Investment fund request is not cancelable"
  | CannotPatchRequest => "Investment fund request status is locked"
  | AssertionError m | Error m => m
  | TypeError p => p
  | InsufficientFunds => "InsufficientFunds"
  | InsufficientFundCapital => "InsufficientFundCapital"
  | DatabaseError _ => "DatabaseError"
  end.

(** [res.status(err.status || 500).json({ success: false,
    message: err.message || 'Something went wrong', code: err.code })] *)
Definition error_middleware (e : Exn) : ErrorReply :=
  {| reply_status :=
       match err_status e with
       | Some s => if s =? 0 then 500 else s
       | None => 500
       end;
     reply_message :=
       if (err_message e =? "")%string then "Something went wrong"
       else err_message e;
     reply_code := err_code e |}.

End ErrorMiddleware.

(** The patches [{ status }] and [{ status, refunded }] of an update. *)
Definition set_status (st : RequestStatus) (r : InvestmentFundRequest)
  : InvestmentFundRequest :=
  mkInvestmentFundRequest
    (request_id r) (request_investmentFundId r) (request_userId r)
    (request_type r) (request_amount r) (request_requestPercent r)
    st (request_refunded r) (request_authenticationToken r).

Definition set_status_refunded (st : RequestStatus) (refunded : bool)
           (r : InvestmentFundRequest) : InvestmentFundRequest :=
  mkInvestmentFundRequest
    (request_id r) (request_investmentFundId r) (request_userId r)
    (request_type r) (request_amount r) (request_requestPercent r)
    st refunded (request_authenticationToken r).

(** ** The handlers *)

Section Controller.
Context {driver : Driver} {models : Models}.

Definition finish {A} (r : (Exn + A) * Store) (ok : A -> Response)
  : Outcome * Store :=
  match r with
  | (inl e, db) => (Threw e, db)
  | (inr a, db) => (Responded (ok a), db)
  end.

(** [req.user], [req.twofaIsVerified], [req.params.id] and
    [req.body.amount] are the arguments. The insert and the debit are the
    two promises of one [Promise.all] inside one [transaction]. *)
Definition subscribeToFund (user : User) (twofaIsVerified : bool)
           (id : Id) (amount : JSValue) (db : Store) : Outcome * Store :=
  match first (where_ (fun f => fund_id f =? id) (investmentFunds db)) with
  | None => (Responded (json 404 (Failure "Investment fund not found")), db)
  | Some investmentFund =>
      match first (where_ (fun b =>
                     (balance_userId b =? user_id user) &&
                     (balance_currencyCode b =? fund_currencyCode investmentFund)%string)
                   (balances db)) with
      | None => (Threw (AssertionError "Balance not found"), db)
      | Some balance =>
          if user_twofa user && negb twofaIsVerified
          then (Responded (json 401 (Failure "Unauthorized")), db)
          else
            finish
              (transaction
                 (Promise_all2
                    (insert_request investmentFund (user_id user)
                                    "subscription" amount JUndefined PENDING)
                    (Balance_remove balance amount)) db)
              (fun r => json 200 (SuccessRequest (fst r)))
      end
  end.

(** The assertion on [amount || percent] is the first statement; the
    insert runs outside any transaction and no balance is looked up. *)
Definition redeemFromFund (user : User) (twofaIsVerified : bool)
           (id : Id) (amount percent : JSValue) (db : Store)
  : Outcome * Store :=
  if negb (truthy (js_or amount percent))
  then (Threw (AssertionError
                 "Need amount or percent for a redemption request"), db)
  else
    match first (where_ (fun f => fund_id f =? id) (investmentFunds db)) with
    | None => (Responded (json 404 (Failure "Investment fund not found")), db)
    | Some investmentFund =>
        if user_twofa user && negb twofaIsVerified
        then (Responded (json 401 (Failure "Unauthorized")), db)
        else
          finish
            (await (insert_request investmentFund (user_id user)
                                   "redemption" amount percent PENDING) db)
            (fun request => json 200 (SuccessRequest request))
    end.

(** The callback of the transaction of [cancelRequest]. It returns the
    response it has sent itself, if any. [const { userId } = request]
    stands before the test [if (!request)]. *)
Definition cancelRequest_callback (user : User) (id : Id)
  : Tx (option Response) :=
  (request <- select (fun db =>
       first (where_ (fun r => (request_id r =? id) &&
                               (request_userId r =? user_id user))
                     (investmentFundRequests db))) ;;
   userId <- destructure request "userId" request_userId ;;
   match request with
   | None =>
       ret (Some (json 404 (Failure "Investment fund request not found")))
   | Some request =>
       if negb (isCancelable request) then throw CannotCancelRequest
       else
         investmentFund <- select (fun db =>
             first (where_ (fun f => fund_id f =? request_investmentFundId request)
                           (investmentFunds db))) ;;
         currencyCode <- destructure investmentFund "currencyCode"
                                     fund_currencyCode ;;
         found <- select (fun db =>
             first (where_ (fun b =>
                              (balance_userId b =? userId) &&
                              (balance_currencyCode b =? currencyCode)%string)
                           (balances db))) ;;
         balance <- assert_some found "Balance not found" ;;
         let refundUser := refundable request in
         result <- update_request request
                     (set_status_refunded CANCELED refundUser) ;;
         (if refundUser
          then amount <- destructure result "amount" request_amount ;;
               Balance_add balance amount
          else ret tt) ;;;
         ret None
   end)%tx.

Definition cancelRequest (user : User) (id : Id) (db : Store)
  : Outcome * Store :=
  finish (transaction (cancelRequest_callback user id) db)
         (fun sent =>
            match sent with
            | Some response => response
            | None => json 200 Success
            end).

Definition run_method (m : Store -> option Exn * Store) (db : Store)
  : Outcome * Store :=
  match m db with
  | (Some e, db') => (Threw e, db')
  | (None, db') => (Responded (json 200 Success), db')
  end.

(** The fund is found through the join with its requests; its [requests]
    are those with the id. The four methods run outside the handler's
    control: each is awaited, and what it throws the handler throws. *)
Definition patchInvestmentFundRequest (id : Id) (status : JSValue)
           (db : Store) : Outcome * Store :=
  let of_fund f r :=
    (request_investmentFundId r =? fund_id f) && (request_id r =? id) in
  match first (where_ (fun f => existsb (of_fund f) (investmentFundRequests db))
                      (investmentFunds db)) with
  | None => (Responded (json 404 (Failure "Not found")), db)
  | Some investmentFund =>
      let requests := where_ (of_fund investmentFund)
                             (investmentFundRequests db) in
      match requests with
      | [] => (Responded (json 404 (Failure "Not found")), db)
      | _ :: _ =>
          match first (filter (fun r => request_id r =? id) requests) with
          | None => (Threw (TypeError "isLocked"), db)
          | Some fundRequest =>
              if isLocked fundRequest then (Threw CannotPatchRequest, db)
              else if (request_type fundRequest =? "subscription")%string
                      && strict_eq status (statuses APPROVED)
              then run_method (approveSubscription investmentFund fundRequest) db
              else if (request_type fundRequest =? "subscription")%string
                      && strict_eq status (statuses DECLINED)
              then run_method (declineSubscription investmentFund fundRequest) db
              else if (request_type fundRequest =? "redemption")%string
                      && strict_eq status (statuses APPROVED)
              then run_method (approveRedemption investmentFund fundRequest) db
              else if (request_type fundRequest =? "redemption")%string
                      && strict_eq status (statuses DECLINED)
              then run_method (declineRedemption investmentFund fundRequest) db
              else (Threw (Error "Unknown investment fund request operation"), db)
          end
      end
  end.

(** What a query resolves to: one row or undefined after [.first()], an
    array of rows without it. *)
Inductive Fetched :=
| Row (r : option InvestmentFundRequest)
| Rows (l : list InvestmentFundRequest).

(** [!value] is true for undefined only: an array, even an empty one, is
    an object. *)
Definition is_falsy (v : Fetched) : bool :=
  match v with
  | Row None => true
  | _ => false
  end.

(** [value.$query().update(patch)]: [$query] is a method of a model
    instance; on an array the property is undefined and the call is a
    TypeError. *)
Definition dollar_query_update (v : Fetched)
           (patch : InvestmentFundRequest -> InvestmentFundRequest)
  : Tx unit :=
  match v with
  | Row (Some r) => (update_request r patch ;;; ret tt)%tx
  | Row None => throw (TypeError "$query")
  | Rows _ => throw (TypeError "$query")
  end.

(** The query is awaited as it is, without [.first()]. *)
Definition activateRequest (user : User) (authenticationToken : string)
           (db : Store) : Outcome * Store :=
  let request :=
    Rows (where_ (fun r =>
              (request_userId r =? user_id user) &&
              (request_authenticationToken r =? authenticationToken)%string &&
              status_eqb (request_status r) PENDING_EMAIL_VERIFICATION)
            (investmentFundRequests db)) in
  if is_falsy request
  then (Responded (json 404 (Failure "Request not found")), db)
  else
    finish
      (await (dollar_query_update request (set_status PENDING)) db)
      (fun _ => json 200 Success).

End Controller.

(** ** The performance report *)

(** The comparison [>] of the database on numeric values: NaN sorts
    above every number. *)
Definition sql_numeric_gt (x y : BigNumber.t) : bool :=
  match x, y with
  | BigNumber.NaN, BigNumber.NaN => false
  | BigNumber.NaN, _ => true
  | _, BigNumber.NaN => false
  | _, _ => BigNumber.isGreaterThan x y
  end.

(** [InvestmentFund.query().joinEager('[shares,balanceUpdates]')
      .where('shares.userId', userId).andWhere('shares.amount', '>', 0)
      .orderBy('updatedAt', 'asc')]: the funds joined with the share rows
    that pass the two conditions; a fund without such a row drops out of
    the join. *)
Definition held_shares (userId : Id) (db : Store) (f : InvestmentFund)
  : list InvestmentFundShares :=
  where_ (fun s => (shares_investmentFundId s =? fund_id f) &&
                   (shares_userId s =? userId) &&
                   sql_numeric_gt (shares_amount s) BigNumber.zero)
         (investmentFundShares db).

Definition funds_held_by (userId : Id) (db : Store)
  : list (InvestmentFund * list InvestmentFundShares) :=
  sort_by (fun a b => fund_updatedAt (fst a) <=? fund_updatedAt (fst b))
    (where_ (fun fs => match snd fs with [] => false | _ :: _ => true end)
       (map (fun f => (f, held_shares userId db f)) (investmentFunds db))).

Record Figures := mkFigures {
  userProfitAmount : BigNumber.t;
  fees : BigNumber.t;
  investmentValueMinusFees : BigNumber.t;
  initialInvestment : BigNumber.t;
  profitPercent : string
}.

(** The arithmetic of the callback of [funds.map]. [1 -
    userRedeemProfitPercent] is a subtraction of numbers; every other
    step is a BigNumber operation. *)
Definition figures (profitAmount : BigNumber.t) (userRedeemProfitPercent : JSValue)
           (amount sharePrice : BigNumber.t) : Figures :=
  let userProfitAmount :=
    BigNumber.times profitAmount (BigNumber.of_js userRedeemProfitPercent) in
  let fees :=
    BigNumber.times profitAmount
      (BigNumber.of_number
         (Number.sub (Number.of_Z 1) (ToNumber userRedeemProfitPercent))) in
  let investmentValueMinusFees :=
    BigNumber.minus (BigNumber.times amount sharePrice) fees in
  let initialInvestment :=
    BigNumber.minus investmentValueMinusFees userProfitAmount in
  let profitPercent :=
    BigNumber.toFixed 2
      (BigNumber.times (BigNumber.dividedBy userProfitAmount initialInvestment)
                       (BigNumber.of_number (Number.of_Z 100))) in
  mkFigures userProfitAmount fees investmentValueMinusFees initialInvestment
            profitPercent.

(** [Promise.all(list.map(f))]. *)
Fixpoint Promise_all {A B} (f : A -> Exn + B) (l : list A) : Exn + list B :=
  match l with
  | [] => inr []
  | a :: rest =>
      match f a, Promise_all f rest with
      | inl e, _ => inl e
      | inr _, inl e => inl e
      | inr b, inr bs => inr (b :: bs)
      end
  end.

Section Performance.
Context {models : Models}.

Definition performance_entry (userId : Id) (userRedeemProfitPercent : JSValue)
           (db : Store) (fs : InvestmentFund * list InvestmentFundShares)
  : Exn + PerformanceEntry :=
  let f := fst fs in
  match calculateTotalProfitAmount f userId db with
  | inl e => inl e
  | inr profitAmount =>
      match first (snd fs) with
      | None => inl (TypeError "amount")
      | Some share =>
          let fig := figures profitAmount userRedeemProfitPercent
                             (shares_amount share) (fund_sharePrice f) in
          inr {| entry_investmentFundId := fund_id f;
                 entry_investmentFundName := fund_name f;
                 entry_currencyCode := fund_currencyCode f;
                 entry_shares := shares_amount share;
                 entry_profitAmount := userProfitAmount fig;
                 entry_initialInvestment := initialInvestment fig;
                 entry_investmentValue := investmentValueMinusFees fig;
                 entry_profitPercent := profitPercent fig |}
      end
  end.

(** The comparator [(a, b) => parseFloat(b.profitAmount) -
    parseFloat(a.profitAmount)]; the sort leaves [a] before [b] unless the
    difference is positive (a NaN difference counts as zero). *)
Definition by_profit_desc (a b : PerformanceEntry) : bool :=
  match Number.sign
          (Number.sub (BigNumber.parseFloat (entry_profitAmount b))
                      (BigNumber.parseFloat (entry_profitAmount a))) with
  | Gt => false
  | _ => true
  end.

Definition fetchPerformance (user : User) (db : Store) : Outcome * Store :=
  let userId := user_id user in
  let funds := funds_held_by userId db in
  match first (investmentFundSettings db) with
  | None => (Threw (TypeError "userRedeemProfitPercent"), db)
  | Some settings =>
      match Promise_all
              (performance_entry userId (userRedeemProfitPercent settings) db)
              funds with
      | inl e => (Threw e, db)
      | inr performance =>
          (Responded (json 200 (SuccessPerformance
                                  (sort_by by_profit_desc performance))), db)
      end
  end.

End Performance.

(** ** A reference instance of the models *)

Section SpecModels.
Context {driver : Driver}.

(** Modelled from the spec: InvestmentFundRequest.statuses, whose values
    are not among the sources; the states carry their names. *)
Definition spec_statuses (s : RequestStatus) : JSValue :=
  JStr match s with
       | PENDING_EMAIL_VERIFICATION => "PENDING_EMAIL_VERIFICATION"
       | PENDING => "PENDING"
       | APPROVED => "APPROVED"
       | DECLINED => "DECLINED"
       | CANCELED => "CANCELED"
       end.

(** Modelled from the spec: the getter isCancelable of the request model,
    "true while status is PENDING and, for subscriptions, before fund
    approval has moved money into the fund pool" (an approval leaves
    PENDING). *)
Definition spec_isCancelable (r : InvestmentFundRequest) : bool :=
  status_eqb (request_status r) PENDING.

(** Modelled from the spec: the getter refundable of the request model,
    "true for a subscription whose debited amount was never converted to
    shares". *)
Definition spec_refundable (r : InvestmentFundRequest) : bool :=
  (request_type r =? "subscription")%string &&
  negb (status_eqb (request_status r) APPROVED).

(** Modelled from the spec: the getter isLocked of the request model;
    approve and decline are "only permitted while the request is
    PENDING". *)
Definition spec_isLocked (r : InvestmentFundRequest) : bool :=
  negb (status_eqb (request_status r) PENDING).

Definition held (fundId userId : Id) (db : Store) : BigNumber.t :=
  match first (where_ (fun s => (shares_investmentFundId s =? fundId) &&
                                (shares_userId s =? userId))
                      (investmentFundShares db)) with
  | Some s => shares_amount s
  | None => BigNumber.zero
  end.

Definition set_held (fundId userId : Id) (amount : BigNumber.t) : Tx unit :=
  fun db =>
    if stmt_fails UpdateShares then inl (DatabaseError UpdateShares)
    else
      let hit s := (shares_investmentFundId s =? fundId) &&
                   (shares_userId s =? userId) in
      let rows := investmentFundShares db in
      inr (tt,
           with_shares
             (if existsb hit rows
              then map (fun s => if hit s
                                 then mkInvestmentFundShares fundId userId amount
                                 else s) rows
              else rows ++ [mkInvestmentFundShares fundId userId amount]) db).

Definition set_fund_balance (fundId : Id) (amount : BigNumber.t) : Tx unit :=
  fun db =>
    inr (tt,
         with_funds
           (map (fun f => if fund_id f =? fundId
                          then mkInvestmentFund
                                 (fund_id f) (fund_name f) (fund_currencyCode f)
                                 (fund_sharePrice f) amount (fund_updatedAt f)
                          else f) (investmentFunds db)) db).

Definition user_balance (userId : Id) (currencyCode : string) : Tx Balance :=
  (found <- select (fun db =>
       first (where_ (fun b => (balance_userId b =? userId) &&
                               (balance_currencyCode b =? currencyCode)%string)
                     (balances db))) ;;
   assert_some found "Balance not found")%tx.

Definition as_method (t : Tx unit) (db : Store) : option Exn * Store :=
  match transaction t db with
  | (inl e, db') => (Some e, db')
  | (inr _, db') => (None, db')
  end.

(** Modelled from the spec: InvestmentFund.approveSubscription, not among
    the sources. "convert the previously-debited fiat amount into shares
    via shares = amount / currentSharePrice; credit the Fund's pooled
    capital; increment the user's Share record; set status APPROVED", in
    one transaction. *)
Definition spec_approveSubscription (f : InvestmentFund)
           (r : InvestmentFundRequest) : Store -> option Exn * Store :=
  as_method
    (let amount := BigNumber.of_js (request_amount r) in
     let shares := BigNumber.dividedBy amount (fund_sharePrice f) in
     set_fund_balance (fund_id f) (BigNumber.plus (fund_balance f) amount) ;;;
     now <- select (held (fund_id f) (request_userId r)) ;;
     set_held (fund_id f) (request_userId r) (BigNumber.plus now shares) ;;;
     update_request r (set_status APPROVED) ;;;
     ret tt)%tx.

(** Modelled from the spec: InvestmentFund.declineSubscription, not among
    the sources. "refund the previously-debited amount back to the user's
    balance; set status DECLINED". *)
Definition spec_declineSubscription (f : InvestmentFund)
           (r : InvestmentFundRequest) : Store -> option Exn * Store :=
  as_method
    (balance <- user_balance (request_userId r) (fund_currencyCode f) ;;
     Balance_add balance (request_amount r) ;;;
     update_request r (set_status DECLINED) ;;;
     ret tt)%tx.

(** Modelled from the spec: InvestmentFund.approveRedemption, not among
    the sources. "compute the share quantity to liquidate (requestPercent *
    heldShares if percent given, else amount ...); convert to fiat at
    current share price; decrement the Share record; credit the user's
    balance; set status APPROVED"; "if a redemption would overdraw the
    pool, fail with InsufficientFundCapital". *)
Definition spec_approveRedemption (f : InvestmentFund)
           (r : InvestmentFundRequest) : Store -> option Exn * Store :=
  as_method
    (now <- select (held (fund_id f) (request_userId r)) ;;
     let quantity :=
       if truthy (request_requestPercent r)
       then BigNumber.times (BigNumber.of_js (request_requestPercent r)) now
       else BigNumber.of_js (request_amount r) in
     let fiat := BigNumber.times quantity (fund_sharePrice f) in
     if negb (BigNumber.isLessThanOrEqualTo fiat (fund_balance f))
     then throw InsufficientFundCapital
     else
       set_fund_balance (fund_id f) (BigNumber.minus (fund_balance f) fiat) ;;;
       set_held (fund_id f) (request_userId r) (BigNumber.minus now quantity) ;;;
       balance <- user_balance (request_userId r) (fund_currencyCode f) ;;
       current <- select (fun db =>
           first (where_ (fun b => balance_id b =? balance_id balance)
                         (balances db))) ;;
       row <- assert_some current "Balance not found" ;;
       (fun db =>
          if stmt_fails UpdateBalance then inl (DatabaseError UpdateBalance)
          else inr (tt, set_balance_amount (balance_id row)
                          (BigNumber.plus (balance_amount row) fiat) db)) ;;;
       update_request r (set_status APPROVED) ;;;
       ret tt)%tx.

(** Modelled from the spec: InvestmentFund.declineRedemption, not among
    the sources. "no balance movement (none was reserved at creation); set
    status DECLINED". *)
Definition spec_declineRedemption (f : InvestmentFund)
           (r : InvestmentFundRequest) : Store -> option Exn * Store :=
  as_method (update_request r (set_status DECLINED) ;;; ret tt)%tx.

(** The instance: the getters and methods above, BadRequest with status
    400, and a profit calculator given by the caller (the accrual over the
    balance updates of a fund is not among the sources). *)
Definition spec_models
           (profit : InvestmentFund -> Id -> Store -> Exn + BigNumber.t)
  : Models :=
  {| statuses := spec_statuses;
     isCancelable := spec_isCancelable;
     refundable := spec_refundable;
     isLocked := spec_isLocked;
     approveSubscription := spec_approveSubscription;
     declineSubscription := spec_declineSubscription;
     approveRedemption := spec_approveRedemption;
     declineRedemption := spec_declineRedemption;
     calculateTotalProfitAmount := profit;
     BadRequest_status := Some 400 |}.

End SpecModels.

(** A database in which no statement fails and ids count upwards. *)
Definition next_id (rows : list InvestmentFundRequest) : Id :=
  1 + fold_right Z.max 0 (map request_id rows).

Definition sound_driver : Driver :=
  {| stmt_fails := fun _ => false; generate_id := next_id |}.

(** A database that rejects the statements of the kinds in [broken]. *)
Definition stmt_eqb (a b : Stmt) : bool :=
  match a, b with
  | InsertRequest, InsertRequest | UpdateRequest, UpdateRequest
  | UpdateBalance, UpdateBalance | UpdateShares, UpdateShares => true
  | _, _ => false
  end.

Definition faulty_driver (broken : list Stmt) : Driver :=
  {| stmt_fails := fun s => existsb (stmt_eqb s) broken;
     generate_id := next_id |}.

(** ** A sample store *)

Definition bn (s : string) : BigNumber.t := BigNumber.of_string s.
Definition num (s : string) : JSValue := JNum (ToNumber (JStr s)).

Definition alice : User := mkUser 1 false.
Definition bob : User := mkUser 2 true.

Definition fund_alpha : InvestmentFund :=
  mkInvestmentFund 10 "Alpha" "USD" (bn "2") (bn "1000") 100.
Definition fund_beta : InvestmentFund :=
  mkInvestmentFund 11 "Beta" "USD" (bn "5") (bn "0") 50.

Definition request_1 : InvestmentFundRequest :=
  mkInvestmentFundRequest 1 10 1 "subscription" (JStr "400") JUndefined
                          PENDING false "".
Definition request_2 : InvestmentFundRequest :=
  mkInvestmentFundRequest 2 10 1 "redemption" (JStr "50") JUndefined
                          APPROVED false "".
Definition request_3 : InvestmentFundRequest :=
  mkInvestmentFundRequest 3 10 2 "subscription" (JStr "10") JUndefined
                          PENDING_EMAIL_VERIFICATION false "token-3".

Definition balance_alice : Balance := mkBalance 1 1 "USD" (bn "600").
Definition balance_bob : Balance := mkBalance 2 2 "USD" (bn "75.5").

Definition sample_store : Store :=
  {| investmentFunds := [ fund_alpha; fund_beta ];
     investmentFundRequests := [ request_1; request_2; request_3 ];
     balances := [ balance_alice; balance_bob ];
     investmentFundShares :=
       [ mkInvestmentFundShares 10 1 (bn "250");
         mkInvestmentFundShares 11 1 (bn "0");
         mkInvestmentFundShares 10 2 (bn "3") ];
     investmentFundSettings := [ mkInvestmentFundSettings (num "0.3") ] |}.

Definition profit_100 (f : InvestmentFund) (userId : Id) (db : Store)
  : Exn + BigNumber.t := inr (bn "100").

Definition sample_models : Models := @spec_models sound_driver profit_100.

(** * Properties *)

(** ** Lists of rows *)

Lemma first_where_In {A} (p : A -> bool) (l : list A) (r : A) :
  first (where_ p l) = Some r -> In r l /\ p r = true.
Proof.
  unfold where_. induction l as [|a l IH]; simpl; [discriminate|].
  destruct (p a) eqn:Ha; simpl.
  - intros [= <-]. auto.
  - intros H. destruct (IH H). auto.
Qed.

Lemma first_where_none {A} (p : A -> bool) (l : list A) :
  first (where_ p l) = None -> forall r, In r l -> p r = false.
Proof.
  unfold where_. induction l as [|a l IH]; simpl; [tauto|].
  destruct (p a) eqn:Ha; simpl; [discriminate|].
  intros H r [<-|Hr]; auto.
Qed.

Lemma existsb_eqb_map {A} (key : A -> Id) (l : list A) (r : A) (i : Id) :
  In r l -> key r = i -> existsb (Z.eqb i) (map key l) = true.
Proof.
  intros Hin <-. apply existsb_exists. exists (key r). split.
  - now apply in_map.
  - apply Z.eqb_refl.
Qed.

(** Under a primary key, a row is the one that its id selects. *)
Lemma first_where_key {A} (key : A -> Id) (l : list A) (r : A) :
  unique_ids (map key l) = true -> In r l ->
  first (where_ (fun x => key x =? key r) l) = Some r.
Proof.
  unfold where_. induction l as [|a l IH]; simpl; [tauto|].
  intros Hu [->|Hin].
  - now rewrite Z.eqb_refl.
  - apply andb_prop in Hu as [Ha Hl].
    destruct (key a =? key r) eqn:E.
    + apply Z.eqb_eq in E.
      rewrite (existsb_eqb_map key l r (key a) Hin (eq_sym E)) in Ha.
      discriminate.
    + auto.
Qed.

Lemma first_where_refine {A} (key : A -> Id) (q : A -> bool) (l : list A)
      (r : A) (i : Id) :
  unique_ids (map key l) = true ->
  first (where_ (fun x => (key x =? i) && q x) l) = Some r ->
  first (where_ (fun x => key x =? key r) l) = Some r /\ key r = i.
Proof.
  intros Hu H. apply first_where_In in H as [Hin Hp].
  apply andb_prop in Hp as [Hk _]. apply Z.eqb_eq in Hk.
  split; [now apply first_where_key | assumption].
Qed.

(** ** C1: subscribeToFund *)

Section Subscribe.
Context {driver : Driver}.

(** C1. On an existing fund, with an existing balance of the user in the
    currency of the fund and two-factor not pending, subscribeToFund
    either debits the amount and inserts the request in status PENDING,
    or does neither: when the insert or the debit fails (the database
    rejects the statement, or the amount exceeds the balance) the handler
    rejects and the store is the one it started from. *)
Theorem subscribeToFund_atomic (user : User) (twofaIsVerified : bool)
        (id : Id) (amount : JSValue) (db : Store)
        (investmentFund : InvestmentFund) (balance : Balance) :
  first (where_ (fun f => fund_id f =? id) (investmentFunds db))
    = Some investmentFund ->
  first (where_ (fun b =>
            (balance_userId b =? user_id user) &&
            (balance_currencyCode b =? fund_currencyCode investmentFund)%string)
          (balances db)) = Some balance ->
  user_twofa user && negb twofaIsVerified = false ->
  unique_ids (map balance_id (balances db)) = true ->
  let request :=
    mkInvestmentFundRequest
      (generate_id (investmentFundRequests db)) (fund_id investmentFund)
      (user_id user) "subscription" amount JUndefined PENDING false "" in
  let insert_ok := negb (stmt_fails InsertRequest) in
  let debit_ok :=
    BigNumber.isLessThanOrEqualTo (BigNumber.of_js amount)
                                  (balance_amount balance)
    && negb (stmt_fails UpdateBalance) in
  let '(outcome, db') := subscribeToFund user twofaIsVerified id amount db in
  if insert_ok && debit_ok
  then outcome = Responded (json 200 (SuccessRequest request)) /\
       investmentFundRequests db' = (investmentFundRequests db ++ [request])%list /\
       balances db' =
         balances (set_balance_amount (balance_id balance)
                     (BigNumber.minus (balance_amount balance)
                                      (BigNumber.of_js amount)) db) /\
       investmentFunds db' = investmentFunds db /\
       investmentFundShares db' = investmentFundShares db /\
       investmentFundSettings db' = investmentFundSettings db
  else (exists e, outcome = Threw e) /\ db' = db.
Proof.
  intros Hfund Hbal H2fa Hkey. cbv zeta.
  unfold subscribeToFund. rewrite Hfund, Hbal, H2fa.
  assert (Hrow : first (where_ (fun b => balance_id b =? balance_id balance)
                               (balances db)) = Some balance).
  { apply first_where_key; [assumption|]. now apply first_where_In in Hbal. }
  unfold finish, transaction, Promise_all2, bind, ret, insert_request,
    Balance_remove.
  destruct (stmt_fails InsertRequest); simpl.
  - split; [eauto | reflexivity].
  - rewrite Hrow.
    destruct (BigNumber.isLessThanOrEqualTo _ _); simpl.
    + destruct (stmt_fails UpdateBalance); simpl.
      * split; [eauto | reflexivity].
      * repeat split.
    + split; [eauto | reflexivity].
Qed.

End Subscribe.

(** ** C3, C4, C8: cancelRequest *)

(** A patch that keeps what the condition [p] reads, applied to the rows
    that [c] selects, among them the first row that [p] selects. *)
Lemma first_where_patched {A} (p c : A -> bool) (patch : A -> A) (l : list A)
      (r : A) :
  (forall x, p (patch x) = p x) ->
  first (where_ p l) = Some r ->
  c r = true ->
  first (where_ p (map (fun x => if c x then patch x else x) l))
    = Some (patch r).
Proof.
  intros Hp. unfold where_. induction l as [|a l IH]; simpl; [discriminate|].
  destruct (p a) eqn:E; simpl.
  - intros [= <-] Hc. rewrite Hc, Hp, E. reflexivity.
  - intros H Hc. replace (p (if c a then patch a else a)) with false.
    + now apply IH.
    + destruct (c a); [rewrite Hp|]; now rewrite E.
Qed.

Lemma first_where_map_patch {A} (key : A -> Id) (patch : A -> A) (l : list A)
      (r : A) (i : Id) :
  (forall x, key (patch x) = key x) ->
  first (where_ (fun x => key x =? i) l) = Some r ->
  first (where_ (fun x => key x =? i)
                (map (fun x => if key x =? i then patch x else x) l))
    = Some (patch r).
Proof.
  intros Hk H.
  apply (first_where_patched (fun x => key x =? i) (fun x => key x =? i)
           patch l r); [intros x; now rewrite Hk | exact H |].
  now apply first_where_In in H.
Qed.

Section Cancel.
Context {driver : Driver} {models : Models}.

(** The callback of cancelRequest, step by step. *)
Lemma cancelRequest_callback_run (user : User) (id : Id) (db : Store) :
  cancelRequest_callback user id db =
  match first (where_ (fun r => (request_id r =? id) &&
                                (request_userId r =? user_id user))
                      (investmentFundRequests db)) with
  | None => inl (TypeError "userId")
  | Some request =>
      if negb (isCancelable request) then inl CannotCancelRequest
      else
        match first (where_ (fun f => fund_id f =? request_investmentFundId request)
                            (investmentFunds db)) with
        | None => inl (TypeError "currencyCode")
        | Some investmentFund =>
            match first (where_ (fun b =>
                            (balance_userId b =? request_userId request) &&
                            (balance_currencyCode b =?
                               fund_currencyCode investmentFund)%string)
                          (balances db)) with
            | None => inl (AssertionError "Balance not found")
            | Some balance =>
                match update_request request
                        (set_status_refunded CANCELED (refundable request)) db with
                | inl e => inl e
                | inr (result, db1) =>
                    if refundable request
                    then
                      match result with
                      | None => inl (TypeError "amount")
                      | Some row =>
                          match Balance_add balance (request_amount row) db1 with
                          | inl e => inl e
                          | inr (_, db2) => inr (None, db2)
                          end
                      end
                    else inr (None, db1)
                end
            end
        end
  end.
Proof.
  unfold cancelRequest_callback, bind, select, destructure, assert_some,
    ret, throw.
  destruct (first (where_ _ (investmentFundRequests db))) as [request|];
    [|reflexivity].
  destruct (isCancelable request); simpl; [|reflexivity].
  destruct (first (where_ _ (investmentFunds db))) as [fund|]; [|reflexivity].
  destruct (first (where_ _ (balances db))) as [balance|]; [|reflexivity].
  destruct (update_request _ _ db) as [e|[result db1]]; [reflexivity|].
  destruct (refundable request); [|reflexivity].
  destruct result as [row|]; [|reflexivity].
  destruct (Balance_add _ _ db1) as [e|[[] db2]]; reflexivity.
Qed.

(** A cancellation that rejects leaves the store as it was. *)
Lemma cancelRequest_throw_unchanged (user : User) (id : Id) (db db' : Store)
      (e : Exn) :
  cancelRequest user id db = (Threw e, db') -> db' = db.
Proof.
  unfold cancelRequest, finish, transaction.
  destruct (cancelRequest_callback user id db) as [e0|[sent db1]].
  - now intros [= _ <-].
  - discriminate.
Qed.


Lemma first_where_balance_after (id : Id) (amount : BigNumber.t)
      (balance : Balance) (db : Store) :
  first (where_ (fun b => balance_id b =? id) (balances db)) = Some balance ->
  first (where_ (fun b => balance_id b =? id)
                (balances (set_balance_amount id amount db)))
    = Some (mkBalance (balance_id balance) (balance_userId balance)
                      (balance_currencyCode balance) amount).
Proof.
  intros H. unfold set_balance_amount, with_balances. cbn [balances].
  exact (first_where_map_patch balance_id
           (fun b => mkBalance (balance_id b) (balance_userId b)
                               (balance_currencyCode b) amount)
           (balances db) balance id (fun _ => eq_refl) H).
Qed.

(** The store that a cancellation leaves when it answers. *)
Definition canceled_store (request : InvestmentFundRequest) (balance : Balance)
           (refund : bool) (db : Store) : Store :=
  let db1 :=
    with_requests
      (map (fun r => if request_id r =? request_id request
                     then set_status_refunded CANCELED refund r
                     else r) (investmentFundRequests db)) db in
  if refund
  then set_balance_amount (balance_id balance)
         (BigNumber.plus (balance_amount balance)
                         (BigNumber.of_js (request_amount request))) db1
  else db1.

Lemma cancelRequest_responded (user : User) (id : Id) (db db' : Store)
      (response : Response) :
  unique_ids (map request_id (investmentFundRequests db)) = true ->
  unique_ids (map balance_id (balances db)) = true ->
  cancelRequest user id db = (Responded response, db') ->
  response = json 200 Success /\
  exists request investmentFund balance,
    first (where_ (fun r => (request_id r =? id) &&
                            (request_userId r =? user_id user))
                  (investmentFundRequests db)) = Some request /\
    isCancelable request = true /\
    first (where_ (fun f => fund_id f =? request_investmentFundId request)
                  (investmentFunds db)) = Some investmentFund /\
    first (where_ (fun b =>
              (balance_userId b =? user_id user) &&
              (balance_currencyCode b =? fund_currencyCode investmentFund)%string)
            (balances db)) = Some balance /\
    db' = canceled_store request balance (refundable request) db.
Proof.
  intros Hreq Hbal.
  unfold cancelRequest, finish, transaction.
  rewrite cancelRequest_callback_run.
  destruct (first (where_ _ (investmentFundRequests db))) as [request|] eqn:Er;
    [|discriminate].
  destruct (isCancelable request) eqn:Ec; simpl; [|discriminate].
  destruct (first (where_ _ (investmentFunds db))) as [fund|] eqn:Ef;
    [|discriminate].
  destruct (first (where_ _ (balances db))) as [balance|] eqn:Eb;
    [|discriminate].
  destruct (first_where_refine request_id
              (fun r => request_userId r =? user_id user)
              (investmentFundRequests db) request id Hreq Er) as [Hrow Hid].
  assert (Huser : request_userId request = user_id user).
  { apply first_where_In in Er as [_ Hp].
    apply andb_prop in Hp as [_ Hp]. now apply Z.eqb_eq. }
  assert (Hb : first (where_ (fun b => balance_id b =? balance_id balance)
                             (balances db)) = Some balance).
  { apply first_where_key; [assumption|]. now apply first_where_In in Eb. }
  rewrite Huser in Eb.
  unfold update_request.
  destruct (stmt_fails UpdateRequest); [discriminate|].
  rewrite Hrow. cbn [option_map].
  unfold canceled_store.
  destruct (refundable request) eqn:Erf.
  - unfold Balance_add. cbn [balances with_requests].
    rewrite Hb.
    destruct (stmt_fails UpdateBalance); [discriminate|].
    intros [= <- <-]. split; [reflexivity|].
    exists request, fund, balance. rewrite Erf. auto.
  - intros [= <- <-]. split; [reflexivity|].
    exists request, fund, balance. rewrite Erf. auto.
Qed.

Lemma balances_frame (id : Id) (amount : BigNumber.t) (db : Store) (b : Balance) :
  balance_id b <> id ->
  In b (balances (set_balance_amount id amount db)) <-> In b (balances db).
Proof.
  intros Hne. unfold set_balance_amount, with_balances. cbn [balances].
  rewrite in_map_iff. split.
  - intros (b0 & Hb0 & Hin).
    destruct (balance_id b0 =? id) eqn:E.
    + subst b. cbn in Hne. apply Z.eqb_eq in E. contradiction.
    + now subst b0.
  - intros Hin. exists b. split; [|assumption].
    destruct (balance_id b =? id) eqn:E; [|reflexivity].
    apply Z.eqb_eq in E. contradiction.
Qed.

(** C3. A cancellation that succeeds answers 200 for a request of the user
    that was cancelable; the row of the request then has status CANCELED
    and [refunded] equal to the [refundable] of the request as it was
    read, its other columns being those of the request, and the balance of
    the user in the currency of the fund has grown by the amount of the
    request exactly when [refundable] is true (it is the same row
    otherwise). Both writes belong to one transaction: a cancellation that
    rejects leaves the store as it was. *)
Theorem cancelRequest_cancels_and_refunds (user : User) (id : Id) (db : Store) :
  unique_ids (map request_id (investmentFundRequests db)) = true ->
  unique_ids (map balance_id (balances db)) = true ->
  match cancelRequest user id db with
  | (Threw _, db') => db' = db
  | (Responded response, db') =>
      response = json 200 Success /\
      exists request investmentFund balance,
        first (where_ (fun r => (request_id r =? id) &&
                                (request_userId r =? user_id user))
                      (investmentFundRequests db)) = Some request /\
        isCancelable request = true /\
        first (where_ (fun f => fund_id f =? request_investmentFundId request)
                      (investmentFunds db)) = Some investmentFund /\
        first (where_ (fun b =>
                  (balance_userId b =? user_id user) &&
                  (balance_currencyCode b =? fund_currencyCode investmentFund)%string)
                (balances db)) = Some balance /\
        (exists stored,
            first (where_ (fun r => (request_id r =? id) &&
                                    (request_userId r =? user_id user))
                          (investmentFundRequests db')) = Some stored /\
            request_status stored = CANCELED /\
            request_refunded stored = refundable request /\
            stored =
              mkInvestmentFundRequest
                (request_id request) (request_investmentFundId request)
                (request_userId request) (request_type request)
                (request_amount request) (request_requestPercent request)
                CANCELED (refundable request)
                (request_authenticationToken request)) /\
        (forall r, In r (investmentFundRequests db') -> request_id r <> id ->
                   In r (investmentFundRequests db)) /\
        first (where_ (fun b => balance_id b =? balance_id balance) (balances db'))
          = Some (if refundable request
                  then mkBalance (balance_id balance) (balance_userId balance)
                         (balance_currencyCode balance)
                         (BigNumber.plus (balance_amount balance)
                            (BigNumber.of_js (request_amount request)))
                  else balance) /\
        (forall b, balance_id b <> balance_id balance ->
                   In b (balances db') <-> In b (balances db)) /\
        investmentFunds db' = investmentFunds db /\
        investmentFundShares db' = investmentFundShares db /\
        investmentFundSettings db' = investmentFundSettings db
  end.
Proof.
  intros Hreq Hbal.
  destruct (cancelRequest user id db) as [[response|e] db'] eqn:E.
  2: { exact (cancelRequest_throw_unchanged user id db db' e E). }
  destruct (cancelRequest_responded user id db db' response Hreq Hbal E)
    as (-> & request & fund & balance & Er & Ec & Ef & Eb & ->).
  split; [reflexivity|].
  exists request, fund, balance.
  do 4 (split; [assumption|]).
  destruct (first_where_refine request_id
              (fun r => request_userId r =? user_id user)
              (investmentFundRequests db) request id Hreq Er) as [Hrow Hid].
  assert (Hb : first (where_ (fun b => balance_id b =? balance_id balance)
                             (balances db)) = Some balance).
  { apply first_where_key; [assumption|]. now apply first_where_In in Eb. }
  assert (Hreqs : forall refund,
    investmentFundRequests (canceled_store request balance refund db) =
    map (fun r => if request_id r =? request_id request
                  then set_status_refunded CANCELED refund r else r)
        (investmentFundRequests db)).
  { intros []; reflexivity. }
  rewrite Hreqs. subst id.
  split.
  { eexists. split.
    - exact (first_where_patched
               (fun r => (request_id r =? request_id request) &&
                         (request_userId r =? user_id user))
               (fun r => request_id r =? request_id request)
               (set_status_refunded CANCELED (refundable request))
               (investmentFundRequests db) request (fun _ => eq_refl) Er
               (proj2 (first_where_In _ _ _ Hrow))).
    - repeat split. }
  split.
  { intros r Hin Hne. apply in_map_iff in Hin as (r0 & Hr0 & Hin).
    destruct (request_id r0 =? request_id request) eqn:E0.
    - subst r. cbn in Hne. apply Z.eqb_eq in E0. contradiction.
    - now subst r0. }
  unfold canceled_store.
  destruct (refundable request).
  - split; [now apply first_where_balance_after|].
    split; [intros b Hne; rewrite balances_frame by assumption; reflexivity|].
    repeat split.
  - split; [exact Hb|]. split; [intros b _; reflexivity|]. repeat split.
Qed.

(** A request of the user that is not cancelable: CannotCancelRequest, and
    nothing is written. *)
Lemma cancelRequest_not_cancelable (user : User) (id : Id) (db : Store)
      (request : InvestmentFundRequest) :
  first (where_ (fun r => (request_id r =? id) &&
                          (request_userId r =? user_id user))
                (investmentFundRequests db)) = Some request ->
  isCancelable request = false ->
  cancelRequest user id db = (Threw CannotCancelRequest, db).
Proof.
  intros Er Ec. unfold cancelRequest, finish, transaction.
  rewrite cancelRequest_callback_run, Er, Ec. reflexivity.
Qed.

(** C4. A cancellation of a request of the user that does not satisfy
    isCancelable rejects with CannotCancelRequest, which the error
    middleware reports with its own code 48 and message, and the store,
    so the request and the balance, stays as it was. The second of two
    cancellations is such an attempt as soon as a CANCELED request is
    not cancelable (see [cancelRequest_twice]). *)
Theorem cancelRequest_rejects_non_cancelable (user : User) (id : Id)
        (db : Store) (request : InvestmentFundRequest) :
  first (where_ (fun r => (request_id r =? id) &&
                          (request_userId r =? user_id user))
                (investmentFundRequests db)) = Some request ->
  isCancelable request = false ->
  cancelRequest user id db = (Threw CannotCancelRequest, db) /\
  reply_code (error_middleware CannotCancelRequest) = JNum (Number.of_Z 48) /\
  reply_message (error_middleware CannotCancelRequest)
    = "Investment fund request is not cancelable".
Proof.
  intros Er Ec. split; [|split; reflexivity].
  unfold cancelRequest, finish, transaction.
  rewrite cancelRequest_callback_run, Er, Ec. reflexivity.
Qed.

(** Cancel, then cancel again: the second attempt rejects with
    CannotCancelRequest and changes nothing. *)
Lemma cancelRequest_twice (user : User) (id : Id) (db db1 : Store)
      (response : Response) :
  (forall r, request_status r = CANCELED -> isCancelable r = false) ->
  unique_ids (map request_id (investmentFundRequests db)) = true ->
  unique_ids (map balance_id (balances db)) = true ->
  cancelRequest user id db = (Responded response, db1) ->
  cancelRequest user id db1 = (Threw CannotCancelRequest, db1).
Proof.
  intros Hgetter Hreq Hbal E.
  destruct (cancelRequest_responded user id db db1 response Hreq Hbal E)
    as (_ & request & fund & balance & Er & _ & _ & _ & ->).
  destruct (first_where_refine request_id
              (fun r => request_userId r =? user_id user)
              (investmentFundRequests db) request id Hreq Er) as [Hrow Hid].
  apply cancelRequest_not_cancelable
    with (request := set_status_refunded CANCELED (refundable request) request).
  - assert (Hreqs : forall refund,
      investmentFundRequests (canceled_store request balance refund db) =
      map (fun r => if request_id r =? request_id request
                    then set_status_refunded CANCELED refund r else r)
          (investmentFundRequests db)).
    { intros []; reflexivity. }
    rewrite Hreqs. subst id.
    exact (first_where_patched
             (fun r => (request_id r =? request_id request) &&
                       (request_userId r =? user_id user))
             (fun r => request_id r =? request_id request)
             (set_status_refunded CANCELED (refundable request))
             (investmentFundRequests db) request (fun _ => eq_refl) Er
             (proj2 (first_where_In _ _ _ Hrow))).
  - now apply Hgetter.
Qed.

(** No request with this id belongs to the user: the callback reads
    [userId] off undefined before it tests the request. *)
Lemma cancelRequest_missing_request (user : User) (id : Id) (db : Store) :
  first (where_ (fun r => (request_id r =? id) &&
                          (request_userId r =? user_id user))
                (investmentFundRequests db)) = None ->
  cancelRequest user id db = (Threw (TypeError "userId"), db).
Proof.
  intros Er. unfold cancelRequest, finish, transaction.
  rewrite cancelRequest_callback_run, Er. reflexivity.
Qed.

End Cancel.

(** ** C5: redeemFromFund *)

Lemma truthy_js_or (a b : JSValue) :
  truthy (js_or a b) = truthy a || truthy b.
Proof. unfold js_or. now destruct (truthy a) eqn:E; rewrite ?E. Qed.

Section Redeem.
Context {driver : Driver}.

(** C5, as the handler has it. The assertion comes first: when [amount]
    and [percent] are both falsy the handler rejects with the assertion
    error, whatever the fund and the user. Otherwise it answers 404 for a
    missing fund and 401 for a pending two-factor check, and only then
    inserts the request, of type redemption and in status PENDING (unless
    the database rejects the insert). The balances are neither written nor
    read: with any other balance table the handler does the same. *)
Theorem redeemFromFund_creation (user : User) (twofaIsVerified : bool)
        (id : Id) (amount percent : JSValue) (db : Store)
        (others : list Balance) :
  let '(outcome, db') :=
    redeemFromFund user twofaIsVerified id amount percent db in
  balances db' = balances db /\
  redeemFromFund user twofaIsVerified id amount percent (with_balances others db)
    = (outcome, with_balances others db') /\
  if negb (truthy amount || truthy percent)
  then outcome = Threw (AssertionError
                          "Need amount or percent for a redemption request")
       /\ db' = db
  else
    match first (where_ (fun f => fund_id f =? id) (investmentFunds db)) with
    | None =>
        outcome = Responded (json 404 (Failure "Investment fund not found"))
        /\ db' = db
    | Some investmentFund =>
        if user_twofa user && negb twofaIsVerified
        then outcome = Responded (json 401 (Failure "Unauthorized")) /\ db' = db
        else if stmt_fails InsertRequest
        then outcome = Threw (DatabaseError InsertRequest) /\ db' = db
        else
          let request :=
            mkInvestmentFundRequest
              (generate_id (investmentFundRequests db)) (fund_id investmentFund)
              (user_id user) "redemption" amount percent PENDING false "" in
          outcome = Responded (json 200 (SuccessRequest request)) /\
          db' = with_requests (investmentFundRequests db ++ [request]) db
    end.
Proof.
  unfold redeemFromFund. rewrite truthy_js_or.
  cbn [investmentFunds with_balances].
  destruct (truthy amount || truthy percent); cbn [negb].
  2: { repeat split. }
  destruct (first (where_ _ (investmentFunds db))) as [fund|].
  2: { repeat split. }
  destruct (user_twofa user && negb twofaIsVerified).
  { repeat split. }
  unfold finish, await, transaction, insert_request.
  destruct (stmt_fails InsertRequest); repeat split.
Qed.

End Redeem.

(** At these inputs an amount is supplied and no request is inserted: the
    fund is missing, the two-factor check is pending, or the amount is the
    number 0. *)
Lemma redeemFromFund_supplied_not_inserted :
  @redeemFromFund sound_driver alice false 99 (num "5") JUndefined sample_store
    = (Responded (json 404 (Failure "Investment fund not found")), sample_store)
  /\
  @redeemFromFund sound_driver bob false 10 (num "5") JUndefined sample_store
    = (Responded (json 401 (Failure "Unauthorized")), sample_store)
  /\
  @redeemFromFund sound_driver alice false 10 (num "0") JUndefined sample_store
    = (Threw (AssertionError "Need amount or percent for a redemption request"),
       sample_store).
Proof. repeat split; vm_compute; reflexivity. Qed.

(** ** C6: patchInvestmentFundRequest *)

Section Patch.
Context {models : Models}.

(** C6, as the handler has it. The request is found through its fund.
    When it is locked the handler throws CannotPatchRequest, whatever the
    type of the request and the target status, and the store is as it was.
    When it is not locked and its type and the target status are not one
    of subscription or redemption with APPROVED or DECLINED, the handler
    throws the error of an unknown operation, calls none of the four
    methods of the fund and leaves the store as it was. *)
Theorem patchInvestmentFundRequest_unknown_operation (id : Id)
        (status : JSValue) (db : Store) (investmentFund : InvestmentFund)
        (fundRequest : InvestmentFundRequest) :
  first (where_ (fun f =>
            existsb (fun r => (request_investmentFundId r =? fund_id f) &&
                              (request_id r =? id))
                    (investmentFundRequests db))
          (investmentFunds db)) = Some investmentFund ->
  first (where_ (fun r => (request_investmentFundId r =? fund_id investmentFund) &&
                          (request_id r =? id))
                (investmentFundRequests db)) = Some fundRequest ->
  (isLocked fundRequest = true ->
   patchInvestmentFundRequest id status db = (Threw CannotPatchRequest, db))
  /\
  (isLocked fundRequest = false ->
   ((request_type fundRequest =? "subscription")%string
    || (request_type fundRequest =? "redemption")%string)
   && (strict_eq status (statuses APPROVED)
       || strict_eq status (statuses DECLINED)) = false ->
   patchInvestmentFundRequest id status db
     = (Threw (Error "Unknown investment fund request operation"), db)).
Proof.
  intros Hfund Hreq.
  unfold patchInvestmentFundRequest. rewrite Hfund.
  pose proof (first_where_In _ _ _ Hreq) as [_ Hp].
  apply andb_prop in Hp as [_ Hid].
  destruct (where_ _ (investmentFundRequests db)) as [|r0 rest] eqn:E;
    [discriminate|].
  cbn [first] in Hreq. injection Hreq as ->.
  cbn [filter]. rewrite Hid. cbn [first].
  split.
  - intros Hlock. rewrite Hlock. reflexivity.
  - intros Hlock Hpair. rewrite Hlock.
    destruct (request_type fundRequest =? "subscription")%string,
             (request_type fundRequest =? "redemption")%string,
             (strict_eq status (statuses APPROVED)),
             (strict_eq status (statuses DECLINED));
      cbn in Hpair |- *; first [discriminate | reflexivity].
Qed.

End Patch.

(** Request 2 is already APPROVED, so locked; the target status PENDING
    makes the pair one outside the four, and the handler answers
    CannotPatchRequest, not the error of an unknown operation. *)
Lemma patchInvestmentFundRequest_locked_first :
  strict_eq (JStr "PENDING") (@statuses sample_models APPROVED) = false /\
  strict_eq (JStr "PENDING") (@statuses sample_models DECLINED) = false /\
  @patchInvestmentFundRequest sample_models 2 (JStr "PENDING") sample_store
    = (Threw CannotPatchRequest, sample_store).
Proof. repeat split; vm_compute; reflexivity. Qed.

(** ** C8: cancelRequest without a request *)

(** C8. Alice cancels request 7, which does not exist: the handler
    rejects with a TypeError, which the error middleware reports with
    status 500; the 404 answer of the handler is never reached. The store
    stays as it was. *)
Theorem cancelRequest_missing_request_TypeError :
  first (where_ (fun r => (request_id r =? 7) &&
                          (request_userId r =? user_id alice))
                (investmentFundRequests sample_store)) = None /\
  @cancelRequest sound_driver sample_models alice 7 sample_store
    = (Threw (TypeError "userId"), sample_store) /\
  reply_status (@error_middleware sample_models (TypeError "userId")) = 500.
Proof. repeat split; vm_compute; reflexivity. Qed.

(** ** C9: activateRequest *)

Section Activate.
Context {driver : Driver}.

(** The query of activateRequest has no [.first()]: what it resolves to is
    an array, never falsy and without [$query]. Whatever the token and the
    user, the handler rejects with a TypeError and writes nothing. *)
Lemma activateRequest_always_throws (user : User) (authenticationToken : string)
      (db : Store) :
  activateRequest user authenticationToken db
    = (Threw (TypeError "$query"), db).
Proof. reflexivity. Qed.

End Activate.

(** C9. Bob presents the token of his request 3, which awaits the email
    verification: the handler rejects with a TypeError and the request
    keeps its status. *)
Theorem activateRequest_matching_token_TypeError :
  where_ (fun r => (request_userId r =? user_id bob) &&
                   (request_authenticationToken r =? "token-3")%string &&
                   status_eqb (request_status r) PENDING_EMAIL_VERIFICATION)
         (investmentFundRequests sample_store)
    = [ request_3 ] /\
  @activateRequest sound_driver bob "token-3" sample_store
    = (Threw (TypeError "$query"), sample_store).
Proof. split; vm_compute; reflexivity. Qed.

(** ** C10: which funds the performance report lists *)

Lemma In_insert_sorted {A} (le : A -> A -> bool) (x y : A) (l : list A) :
  In y (insert_sorted le x l) <-> y = x \/ In y l.
Proof.
  induction l as [|a l IH]; simpl.
  - intuition congruence.
  - destruct (le x a); simpl; rewrite ?IH; intuition congruence.
Qed.

Lemma In_sort_by {A} (le : A -> A -> bool) (y : A) (l : list A) :
  In y (sort_by le l) <-> In y l.
Proof.
  unfold sort_by. induction l as [|a l IH]; simpl; [tauto|].
  rewrite In_insert_sorted, IH. intuition congruence.
Qed.

Lemma Promise_all_In {A B} (f : A -> Exn + B) (l : list A) (bs : list B) :
  Promise_all f l = inr bs ->
  forall b, In b bs -> exists a, In a l /\ f a = inr b.
Proof.
  revert bs. induction l as [|a l IH]; simpl; intros bs.
  - intros [= <-] b [].
  - destruct (f a) as [e|b0] eqn:Ea; [discriminate|].
    destruct (Promise_all f l) as [e|bs0]; [discriminate|].
    intros [= <-] b [<-|Hb].
    + exists a. auto.
    + destruct (IH bs0 eq_refl b Hb) as (a0 & Ha0 & Hf). exists a0. auto.
Qed.

Lemma inr_inj {A B} (x y : B) : @inr A B x = inr y -> x = y.
Proof. now intros [= ->]. Qed.

Section PerformanceFacts.
Context {models : Models}.

(** Where an entry of the report comes from: a fund and a share row of
    the user in that fund whose amount the database found above 0. *)
Lemma fetchPerformance_entry_origin (user : User) (db db' : Store)
      (performance : list PerformanceEntry) (entry : PerformanceEntry) :
  fetchPerformance user db
    = (Responded (json 200 (SuccessPerformance performance)), db') ->
  In entry performance ->
  exists f share,
    In f (investmentFunds db) /\
    In share (investmentFundShares db) /\
    entry_investmentFundId entry = fund_id f /\
    shares_investmentFundId share = fund_id f /\
    shares_userId share = user_id user /\
    sql_numeric_gt (shares_amount share) BigNumber.zero = true /\
    entry_shares entry = shares_amount share.
Proof.
  unfold fetchPerformance.
  destruct (first (investmentFundSettings db)) as [settings|]; [|discriminate].
  destruct (Promise_all _ _) as [e|entries] eqn:E; [discriminate|].
  intros [= <- _] Hin. apply In_sort_by in Hin.
  destruct (Promise_all_In _ _ _ E entry Hin) as ([f shares] & Hfs & Hentry).
  unfold funds_held_by in Hfs. apply In_sort_by in Hfs.
  unfold where_ in Hfs. apply filter_In in Hfs as [Hfs _].
  apply in_map_iff in Hfs as (f0 & [= -> <-] & Hf).
  unfold performance_entry in Hentry. cbn [fst snd] in Hentry.
  destruct (calculateTotalProfitAmount f (user_id user) db); [discriminate|].
  destruct (first (held_shares (user_id user) db f)) as [share|] eqn:Es;
    [|discriminate].
  apply inr_inj in Hentry. subst entry.
  cbn [entry_investmentFundId entry_shares].
  apply first_where_In in Es as [Hs Hp].
  apply andb_prop in Hp as [Hp Hgt]. apply andb_prop in Hp as [Hfund Huser].
  apply Z.eqb_eq in Hfund, Huser.
  exists f, share. auto 10.
Qed.

(** C10. Every entry of the performance report stands for a fund in which
    the user has a share row whose amount the database found strictly
    above 0, and reports that amount; so a fund in which every share row
    of the user has an amount not above 0, or in which the user has no
    share row, has no entry. The report leaves the store as it was. *)
Theorem fetchPerformance_only_held_funds (user : User) (db db' : Store)
        (performance : list PerformanceEntry) :
  fetchPerformance user db
    = (Responded (json 200 (SuccessPerformance performance)), db') ->
  db' = db /\
  (forall entry, In entry performance ->
     exists f share,
       In f (investmentFunds db) /\
       In share (investmentFundShares db) /\
       entry_investmentFundId entry = fund_id f /\
       shares_investmentFundId share = fund_id f /\
       shares_userId share = user_id user /\
       sql_numeric_gt (shares_amount share) BigNumber.zero = true /\
       entry_shares entry = shares_amount share) /\
  (forall fundId,
     (forall share, In share (investmentFundShares db) ->
        shares_investmentFundId share = fundId ->
        shares_userId share = user_id user ->
        sql_numeric_gt (shares_amount share) BigNumber.zero = false) ->
     forall entry, In entry performance ->
       entry_investmentFundId entry <> fundId).
Proof.
  intros H. split; [|split].
  - unfold fetchPerformance in H.
    destruct (first (investmentFundSettings db)); [|discriminate].
    destruct (Promise_all _ _); [discriminate|]. now injection H.
  - intros entry Hin.
    exact (fetchPerformance_entry_origin user db db' performance entry H Hin).
  - intros fundId Hnone entry Hin Heq.
    destruct (fetchPerformance_entry_origin user db db' performance entry H Hin)
      as (f & share & _ & Hs & Hid & Hfund & Huser & Hgt & _).
    rewrite (Hnone share Hs) in Hgt; congruence.
Qed.

End PerformanceFacts.

(** ** C2, C7: the figures of an entry *)








(** The store of the samples with another setting and another holding of
    Alice in fund 10 (at share price 2). *)
Definition report_store (percent : JSValue) (held10 : string) : Store :=
  mkStore (investmentFunds sample_store)
          (investmentFundRequests sample_store)
          (balances sample_store)
          [ mkInvestmentFundShares 10 1 (bn held10);
            mkInvestmentFundShares 11 1 (bn "0");
            mkInvestmentFundShares 10 2 (bn "3") ]
          [ mkInvestmentFundSettings percent ].

Definition entry_of (fig : Figures) (held10 : string) : PerformanceEntry :=
  mkPerformanceEntry 10 "Alpha" "USD" (bn held10)
    (userProfitAmount fig) (initialInvestment fig)
    (investmentValueMinusFees fig) (profitPercent fig).


(** The scenario of the specification: setting 0.3, profit 100, 250 shares
    at price 2. *)
Lemma figures_scenario :
  figures (bn "100") (num "0.3") (bn "250") (bn "2")
    = mkFigures (bn "30") (bn "70") (bn "430") (bn "400") "7.50".
Proof. vm_compute. reflexivity. Qed.

(** C2. With the setting 0.7 (as a number, or as the string of a numeric
    column), a profit of 100 and 250 shares at price 2, [1 - 0.7] is the
    number 0.30000000000000004: the fees are 30.000000000000004 and not
    100 * (1 - 0.7) = 30, the value after fees 469.999999999999996 and not
    470, the initial investment 399.999999999999996 and not 400. *)
Theorem fetchPerformance_fees_drift :
  let fig := mkFigures (bn "70") (bn "30.000000000000004")
                       (bn "469.999999999999996") (bn "399.999999999999996")
                       "17.50" in
  figures (bn "100") (num "0.7") (bn "250") (bn "2") = fig /\
  figures (bn "100") (JStr "0.70") (bn "250") (bn "2") = fig /\
  fst (@fetchPerformance sample_models alice (report_store (num "0.7") "250"))
    = Responded (json 200 (SuccessPerformance [entry_of fig "250"])) /\
  BigNumber.times (bn "100") (BigNumber.minus (bn "1") (bn "0.7")) = bn "30" /\
  fees fig <> bn "30".
Proof. repeat split; try (vm_compute; reflexivity). vm_compute. discriminate. Qed.

(** ** The theorems at the sample store *)

Ltac by_computation := vm_compute; reflexivity.

Lemma Some_inj {A} (x y : A) : Some x = Some y -> x = y.
Proof. now intros [= ->]. Qed.

(** Alice subscribes 100 to fund 10: request 4 is inserted and her
    balance goes from 600 to 500. When the database rejects the update of
    the balance, the insert, which came first, is rolled back with it. *)
Lemma subscribeToFund_atomic_witness :
  let result :=
    @subscribeToFund sound_driver alice false 10 (JStr "100") sample_store in
  let failed :=
    @subscribeToFund (faulty_driver [UpdateBalance]) alice false 10 (JStr "100")
                     sample_store in
  (fst result = Responded (json 200 (SuccessRequest
                  (mkInvestmentFundRequest 4 10 1 "subscription" (JStr "100")
                                           JUndefined PENDING false ""))) /\
   balances (snd result) = [ mkBalance 1 1 "USD" (bn "500"); balance_bob ]) /\
  (fst failed = Threw (DatabaseError UpdateBalance) /\
   snd failed = sample_store).
Proof.
  split.
  - generalize (@subscribeToFund_atomic sound_driver alice false 10
                  (JStr "100") sample_store fund_alpha balance_alice
                  ltac:(by_computation) ltac:(by_computation)
                  ltac:(by_computation) ltac:(by_computation)).
    vm_compute. intros (Hout & _ & Hbal & _). split; assumption.
  - generalize (@subscribeToFund_atomic (faulty_driver [UpdateBalance]) alice
                  false 10 (JStr "100") sample_store fund_alpha balance_alice
                  ltac:(by_computation) ltac:(by_computation)
                  ltac:(by_computation) ltac:(by_computation)).
    vm_compute. intros (_ & Hdb). split; [reflexivity | exact Hdb].
Defined.

(** Alice cancels her pending subscription 1: it becomes CANCELED and
    refunded, and her balance goes from 600 to 1000. *)
Lemma cancelRequest_cancels_and_refunds_witness :
  let result := @cancelRequest sound_driver sample_models alice 1 sample_store in
  fst result = Responded (json 200 Success) /\
  first (where_ (fun r => (request_id r =? 1) && (request_userId r =? user_id alice))
                (investmentFundRequests (snd result)))
    = Some (mkInvestmentFundRequest 1 10 1 "subscription" (JStr "400")
                                    JUndefined CANCELED true "") /\
  first (where_ (fun b => balance_id b =? 1) (balances (snd result)))
    = Some (mkBalance 1 1 "USD" (bn "1000")).
Proof.
  cbv zeta.
  pose proof (@cancelRequest_cancels_and_refunds sound_driver sample_models
                alice 1 sample_store
                ltac:(by_computation) ltac:(by_computation)) as H.
  assert (E : @cancelRequest sound_driver sample_models alice 1 sample_store
              = (Responded (json 200 Success),
                 snd (@cancelRequest sound_driver sample_models alice 1
                                     sample_store))) by by_computation.
  rewrite E in H. cbv beta iota in H.
  destruct H as (_ & request & fund & balance & Er & _ & Ef & Eb
                 & (stored & Hrow & _ & _ & Hstored) & _ & Hbal & _).
  vm_compute in Er. apply Some_inj in Er. subst request.
  vm_compute in Ef. apply Some_inj in Ef. subst fund.
  vm_compute in Eb. apply Some_inj in Eb. subst balance.
  vm_compute in Hstored. subst stored.
  split; [by_computation|]. split.
  - vm_compute in Hrow. vm_compute. exact Hrow.
  - vm_compute in Hbal. vm_compute. exact Hbal.
Defined.

(** Alice cancels request 1 twice: the second attempt finds it CANCELED. *)
Lemma cancelRequest_rejects_non_cancelable_witness :
  let db1 := snd (@cancelRequest sound_driver sample_models alice 1 sample_store) in
  @cancelRequest sound_driver sample_models alice 1 db1
    = (Threw CannotCancelRequest, db1).
Proof.
  cbv zeta.
  apply (@cancelRequest_rejects_non_cancelable sound_driver sample_models
           alice 1
           (snd (@cancelRequest sound_driver sample_models alice 1 sample_store))
           (set_status_refunded CANCELED true request_1)
           ltac:(by_computation) ltac:(by_computation)).
Defined.

(** An admin patches the pending subscription 1 with the status PENDING,
    and the approved redemption 2, which is locked, with the status
    DECLINED. *)
Lemma patchInvestmentFundRequest_unknown_operation_witness :
  @patchInvestmentFundRequest sample_models 1 (JStr "PENDING") sample_store
    = (Threw (Error "Unknown investment fund request operation"), sample_store)
  /\
  @patchInvestmentFundRequest sample_models 2 (JStr "DECLINED") sample_store
    = (Threw CannotPatchRequest, sample_store).
Proof.
  split.
  - apply (proj2 (@patchInvestmentFundRequest_unknown_operation sample_models 1
                    (JStr "PENDING") sample_store fund_alpha request_1
                    ltac:(by_computation) ltac:(by_computation)));
      by_computation.
  - apply (proj1 (@patchInvestmentFundRequest_unknown_operation sample_models 2
                    (JStr "DECLINED") sample_store fund_alpha request_2
                    ltac:(by_computation) ltac:(by_computation)));
      by_computation.
Defined.


(** The report of Alice lists fund 10, where she holds 250 shares, and not
    fund 11, where her share row has amount 0. *)
Lemma fetchPerformance_only_held_funds_witness :
  exists performance,
    @fetchPerformance sample_models alice sample_store
      = (Responded (json 200 (SuccessPerformance performance)), sample_store) /\
    forall entry, In entry performance -> entry_investmentFundId entry <> 11.
Proof.
  eexists. split; [by_computation|].
  refine (proj2 (proj2 (@fetchPerformance_only_held_funds sample_models alice
                          sample_store sample_store _
                          ltac:(by_computation))) 11 _).
  intros share Hin Hfund Huser.
  repeat (destruct Hin as [<-|Hin];
          [first [discriminate Hfund | discriminate Huser | by_computation]|]).
  destruct Hin.
Defined.

(** * The rest of the controller *)

From Stdlib Require Import Permutation Sorted.

(** ** Sorting and awaiting, in general *)

Lemma insert_sorted_perm {A} (le : A -> A -> bool) (x : A) (l : list A) :
  Permutation (insert_sorted le x l) (x :: l).
Proof.
  induction l as [|y t IH]; simpl; [reflexivity|].
  destruct (le x y); [reflexivity|].
  rewrite IH. apply perm_swap.
Qed.

Lemma sort_by_perm {A} (le : A -> A -> bool) (l : list A) :
  Permutation (sort_by le l) l.
Proof.
  unfold sort_by. induction l as [|x l IH]; simpl; [reflexivity|].
  rewrite insert_sorted_perm. now constructor.
Qed.

Section SortBy.
Context {A : Type} (le : A -> A -> bool).
Hypothesis le_total : forall a b, le a b = true \/ le b a = true.
Hypothesis le_trans : forall a b c, le a b = true -> le b c = true -> le a c = true.

Lemma insert_sorted_sorted (x : A) (l : list A) :
  StronglySorted (fun a b => le a b = true) l ->
  StronglySorted (fun a b => le a b = true) (insert_sorted le x l).
Proof.
  induction 1 as [|y t Ht IH Hy]; simpl.
  - repeat constructor.
  - destruct (le x y) eqn:E.
    + constructor; [now constructor|].
      constructor; [assumption|].
      rewrite Forall_forall in Hy |- *. intros z Hz. eauto.
    + constructor; [assumption|].
      rewrite Forall_forall in Hy |- *. intros z Hz.
      apply (Permutation_in _ (insert_sorted_perm le x t)) in Hz.
      destruct Hz as [<-|Hz]; [|auto].
      destruct (le_total x y) as [H|H]; [congruence | assumption].
Qed.

Lemma sort_by_sorted (l : list A) :
  StronglySorted (fun a b => le a b = true) (sort_by le l).
Proof.
  unfold sort_by. induction l as [|x l IH]; simpl; [constructor|].
  now apply insert_sorted_sorted.
Qed.

End SortBy.

Lemma Promise_all_complete {A B} (f : A -> Exn + B) (l : list A) (bs : list B) :
  Promise_all f l = inr bs ->
  List.length bs = List.length l /\
  forall a, In a l -> exists b, In b bs /\ f a = inr b.
Proof.
  revert bs. induction l as [|a l IH]; simpl; intros bs.
  - intros [= <-]. split; [reflexivity | intros a []].
  - destruct (f a) as [e|b0] eqn:Ea; [discriminate|].
    destruct (Promise_all f l) as [e|bs0]; [discriminate|].
    intros [= <-]. destruct (IH bs0 eq_refl) as [Hlen Hall].
    split; [simpl; congruence|].
    intros a' [<-|Ha'].
    + exists b0. simpl. auto.
    + destruct (Hall a' Ha') as (b & Hb & Hf). exists b. simpl. auto.
Qed.

Lemma Promise_all_rejects {A B} (f : A -> Exn + B) (l : list A) (a : A) (e : Exn) :
  In a l -> f a = inl e -> exists e', Promise_all f l = inl e'.
Proof.
  induction l as [|a0 l IH]; simpl; [tauto|].
  intros [->|Hin] Hf.
  - rewrite Hf. eauto.
  - destruct (f a0); [eauto|].
    destruct (IH Hin Hf) as [e' ->]. eauto.
Qed.

(** ** subscribeToFund: no trace of a refused subscription *)

Section SubscribeMore.
Context {driver : Driver}.

(** Whatever the user, the fund id, the amount and the store: either the
    handler answers 200 with the request it has inserted, or the store is
    the one it started from. A 404, a 401, a failed assertion, a debit
    above the balance and a statement that the database rejects all leave
    no trace. *)
Theorem subscribeToFund_all_or_nothing (user : User) (twofaIsVerified : bool)
        (id : Id) (amount : JSValue) (db : Store) :
  (exists request,
      fst (subscribeToFund user twofaIsVerified id amount db)
        = Responded (json 200 (SuccessRequest request)) /\
      request_status request = PENDING /\
      request_userId request = user_id user /\
      In request (investmentFundRequests
                    (snd (subscribeToFund user twofaIsVerified id amount db))))
  \/ snd (subscribeToFund user twofaIsVerified id amount db) = db.
Proof.
  unfold subscribeToFund.
  destruct (first (where_ _ (investmentFunds db))) as [fund|]; [|now right].
  destruct (first (where_ _ (balances db))) as [balance|]; [|now right].
  destruct (user_twofa user && negb twofaIsVerified); [now right|].
  unfold finish, transaction, Promise_all2, bind, ret, insert_request.
  destruct (stmt_fails InsertRequest); [now right|].
  destruct (Balance_remove balance amount _) as [e|[[] db2]] eqn:E; [now right|].
  left. eexists. cbn [fst snd]. repeat split.
  unfold Balance_remove in E. cbn [balances with_requests] in E.
  destruct (first (where_ _ (balances db))); [|discriminate].
  destruct (negb _); [discriminate|].
  destruct (stmt_fails UpdateBalance); [discriminate|].
  injection E as <-. cbn. apply in_or_app. right. now left.
Qed.

End SubscribeMore.

(** ** cancelRequest: the request of another user *)

Section CancelMore.
Context {driver : Driver} {models : Models}.

(** The query of cancelRequest asks for the id and the user together: a
    request that exists but belongs to somebody else is not found, the
    handler rejects as for a missing request and nothing is written,
    cancelable or not. *)
Theorem cancelRequest_of_another_user (user : User) (id : Id) (db : Store)
        (request : InvestmentFundRequest) :
  unique_ids (map request_id (investmentFundRequests db)) = true ->
  In request (investmentFundRequests db) ->
  request_id request = id ->
  request_userId request <> user_id user ->
  cancelRequest user id db = (Threw (TypeError "userId"), db).
Proof.
  intros Hu Hin Hid Hother. apply cancelRequest_missing_request.
  destruct (first (where_ _ (investmentFundRequests db))) as [r|] eqn:E;
    [|reflexivity].
  exfalso.
  destruct (first_where_refine request_id
              (fun r => request_userId r =? user_id user)
              (investmentFundRequests db) r id Hu E) as [Hr Hrid].
  apply first_where_In in E as [_ Hp]. apply andb_prop in Hp as [_ Hp].
  apply Z.eqb_eq in Hp.
  rewrite Hrid, <- Hid in Hr.
  rewrite (first_where_key request_id _ request Hu Hin) in Hr.
  injection Hr as ->. contradiction.
Qed.

End CancelMore.

Lemma cancelRequest_of_another_user_witness :
  @cancelRequest sound_driver sample_models alice 3 sample_store
    = (Threw (TypeError "userId"), sample_store).
Proof.
  apply (@cancelRequest_of_another_user sound_driver sample_models alice 3
           sample_store request_3 ltac:(by_computation));
    [simpl; tauto | by_computation | discriminate].
Defined.

(** ** fetchPerformance: one entry for each fund held, or no report *)

Section PerformanceMore.
Context {models : Models}.

Definition holds_shares_in (userId : Id) (db : Store) (f : InvestmentFund)
  : bool :=
  existsb (fun s => (shares_investmentFundId s =? fund_id f) &&
                    (shares_userId s =? userId) &&
                    sql_numeric_gt (shares_amount s) BigNumber.zero)
          (investmentFundShares db).

Lemma held_shares_nonempty (userId : Id) (db : Store) (f : InvestmentFund) :
  match held_shares userId db f with [] => false | _ :: _ => true end
  = holds_shares_in userId db f.
Proof.
  unfold held_shares, holds_shares_in, where_.
  induction (investmentFundShares db) as [|s l IH]; simpl; [reflexivity|].
  destruct (_ && _ && _); simpl; [reflexivity | exact IH].
Qed.

Lemma funds_held_by_perm (userId : Id) (db : Store) :
  Permutation (map fst (funds_held_by userId db))
              (filter (holds_shares_in userId db) (investmentFunds db)).
Proof.
  unfold funds_held_by. rewrite sort_by_perm. unfold where_.
  induction (investmentFunds db) as [|f l IH]; simpl; [reflexivity|].
  rewrite held_shares_nonempty.
  destruct (holds_shares_in userId db f); simpl; [now constructor | exact IH].
Qed.

(** When the report answers, it has exactly one entry for each fund row
    in which the user has a share row above 0, with the id, the name and
    the currency of that fund; no such fund is dropped. *)
Theorem fetchPerformance_lists_every_held_fund (user : User) (db db' : Store)
        (performance : list PerformanceEntry) :
  fetchPerformance user db
    = (Responded (json 200 (SuccessPerformance performance)), db') ->
  List.length performance
    = List.length (filter (holds_shares_in (user_id user) db)
                          (investmentFunds db)) /\
  forall f, In f (investmentFunds db) ->
    holds_shares_in (user_id user) db f = true ->
    exists entry,
      In entry performance /\
      entry_investmentFundId entry = fund_id f /\
      entry_investmentFundName entry = fund_name f /\
      entry_currencyCode entry = fund_currencyCode f.
Proof.
  unfold fetchPerformance.
  destruct (first (investmentFundSettings db)) as [settings|]; [|discriminate].
  destruct (Promise_all _ _) as [e|entries] eqn:E; [discriminate|].
  intros [= <- _].
  destruct (Promise_all_complete _ _ _ E) as [Hlen Hall].
  split.
  - rewrite (Permutation_length (sort_by_perm _ _)), Hlen.
    rewrite <- (Permutation_length (funds_held_by_perm (user_id user) db)).
    now rewrite length_map.
  - intros f Hf Hheld.
    assert (Hin : In f (map fst (funds_held_by (user_id user) db))).
    { apply (Permutation_in _ (Permutation_sym (funds_held_by_perm _ db))).
      apply filter_In. auto. }
    apply in_map_iff in Hin as ([f0 shares] & <- & Hfs).
    destruct (Hall _ Hfs) as (entry & Hentry & Hf0).
    exists entry. split.
    + apply (Permutation_in _ (Permutation_sym (sort_by_perm _ _))), Hentry.
    + unfold performance_entry in Hf0. cbn [fst snd] in Hf0 |- *.
      destruct (calculateTotalProfitAmount f0 (user_id user) db); [discriminate|].
      destruct (first shares); [|discriminate].
      apply inr_inj in Hf0. subst entry. auto.
Qed.

(** The report is all or nothing: when the profit of one held fund cannot
    be computed, the handler rejects and sends no partial list. *)
Theorem fetchPerformance_rejects_as_a_whole (user : User) (db : Store)
        (f : InvestmentFund) (e : Exn) :
  In f (investmentFunds db) ->
  holds_shares_in (user_id user) db f = true ->
  calculateTotalProfitAmount f (user_id user) db = inl e ->
  exists e', fetchPerformance user db = (Threw e', db).
Proof.
  intros Hf Hheld He. unfold fetchPerformance.
  destruct (first (investmentFundSettings db)) as [settings|]; [|eauto].
  assert (Hin : In f (map fst (funds_held_by (user_id user) db))).
  { apply (Permutation_in _ (Permutation_sym (funds_held_by_perm _ db))).
    apply filter_In. auto. }
  apply in_map_iff in Hin as ([f0 shares] & <- & Hfs).
  destruct (Promise_all_rejects
              (performance_entry (user_id user)
                                 (userRedeemProfitPercent settings) db)
              _ _ e Hfs) as [e' ->]; [|eauto].
  unfold performance_entry. cbn [fst] in He |- *. now rewrite He.
Qed.

End PerformanceMore.

Lemma fetchPerformance_lists_every_held_fund_witness :
  exists entry,
    In entry match fst (@fetchPerformance sample_models alice sample_store) with
             | Responded (mkResponse _ (SuccessPerformance l)) => l
             | _ => []
             end /\
    entry_investmentFundId entry = 10 /\
    entry_investmentFundName entry = "Alpha".
Proof.
  destruct (proj2 (@fetchPerformance_lists_every_held_fund sample_models alice
                     sample_store sample_store _ ltac:(by_computation))
                  fund_alpha ltac:(simpl; tauto) ltac:(by_computation))
    as (entry & Hin & Hid & Hname & _).
  exists entry. auto.
Defined.

(** A profit calculator that fails for fund 10. *)
Definition profit_unknown (f : InvestmentFund) (userId : Id) (db : Store)
  : Exn + BigNumber.t :=
  if fund_id f =? 10 then inl (Error "no balance updates") else inr (bn "1").

Lemma fetchPerformance_rejects_as_a_whole_witness :
  exists e,
    @fetchPerformance (@spec_models sound_driver profit_unknown) alice
                      sample_store = (Threw e, sample_store).
Proof.
  apply (@fetchPerformance_rejects_as_a_whole
           (@spec_models sound_driver profit_unknown) alice sample_store
           fund_alpha (Error "no balance updates"));
    [simpl; tauto | by_computation | by_computation].
Defined.

(** ** fetchRequests, fetchAllRequests, fetchShares *)

Lemma StronglySorted_weaken {A} (R R' : A -> A -> Prop) (l : list A) :
  (forall a b, R a b -> R' a b) -> StronglySorted R l -> StronglySorted R' l.
Proof.
  intros H. induction 1 as [|a l Hl IH Ha]; constructor; [assumption|].
  rewrite Forall_forall in Ha |- *. auto.
Qed.

(** The body [{ success: true, requests }] with its status. *)
Record RequestList := mkRequestList {
  list_status : Z;
  list_requests : list InvestmentFundRequest
}.

(** [.skipUndefined().where(column, value)]: no condition when the value
    is undefined. *)
Definition where_defined {A} (column : A -> Id) (value : option Id)
           (rows : list A) : list A :=
  match value with
  | Some v => where_ (fun r => column r =? v) rows
  | None => rows
  end.

Definition in_fund (investmentFundId : option Id) (r : InvestmentFundRequest)
  : bool :=
  match investmentFundId with
  | Some v => request_investmentFundId r =? v
  | None => true
  end.

Lemma where_defined_filter (investmentFundId : option Id)
      (rows : list InvestmentFundRequest) :
  where_defined request_investmentFundId investmentFundId rows
    = filter (in_fund investmentFundId) rows.
Proof.
  destruct investmentFundId; simpl; [reflexivity|].
  induction rows as [|r l IH]; simpl; congruence.
Qed.

Section Listings.

(** The column createdAt of a request, which the rows above do not carry. *)
Variable createdAt : InvestmentFundRequest -> Z.

(** [.orderBy('createdAt', 'desc')] *)
Definition newest_first (rows : list InvestmentFundRequest)
  : list InvestmentFundRequest :=
  sort_by (fun a b => createdAt b <=? createdAt a) rows.

(** [req.query.investmentFundId] is the id of a fund, or undefined. *)
Definition fetchRequests (user : User) (investmentFundId : option Id)
           (db : Store) : RequestList * Store :=
  (mkRequestList 200
     (newest_first
        (where_defined request_investmentFundId investmentFundId
           (where_ (fun r => request_userId r =? user_id user)
                   (investmentFundRequests db)))),
   db).

Definition fetchAllRequests (investmentFundId : option Id) (db : Store)
  : RequestList * Store :=
  (mkRequestList 200
     (newest_first
        (where_defined request_investmentFundId investmentFundId
                       (investmentFundRequests db))),
   db).

Lemma newest_first_sorted (rows : list InvestmentFundRequest) :
  StronglySorted (fun a b => createdAt b <= createdAt a) (newest_first rows).
Proof.
  apply StronglySorted_weaken
    with (R := fun a b => (createdAt b <=? createdAt a) = true).
  - intros a b H. now apply Z.leb_le.
  - apply sort_by_sorted.
    + intros a b. rewrite !Z.leb_le. lia.
    + intros a b c. rewrite !Z.leb_le. lia.
Qed.

(** The list that fetchRequests answers holds the stored requests of the
    requesting user, in the given fund when one is given: each of them
    once and no request of anybody else, the newest first. The store is
    not written. *)
Theorem fetchRequests_own_requests_newest_first (user : User)
        (investmentFundId : option Id) (db : Store) :
  let '(answer, db') := fetchRequests user investmentFundId db in
  db' = db /\
  list_status answer = 200 /\
  Permutation (list_requests answer)
    (filter (fun r => (request_userId r =? user_id user) &&
                      in_fund investmentFundId r)
            (investmentFundRequests db)) /\
  (forall r, In r (list_requests answer) -> request_userId r = user_id user) /\
  StronglySorted (fun a b => createdAt b <= createdAt a) (list_requests answer).
Proof.
  unfold fetchRequests. cbn [list_status list_requests].
  assert (HP : Permutation
    (newest_first
       (where_defined request_investmentFundId investmentFundId
          (where_ (fun r => request_userId r =? user_id user)
                  (investmentFundRequests db))))
    (filter (fun r => (request_userId r =? user_id user) &&
                      in_fund investmentFundId r)
            (investmentFundRequests db))).
  { unfold newest_first. rewrite sort_by_perm, where_defined_filter.
    unfold where_.
    induction (investmentFundRequests db) as [|r l IH]; simpl; [reflexivity|].
    destruct (request_userId r =? user_id user); simpl; [|exact IH].
    destruct (in_fund investmentFundId r); [now constructor | exact IH]. }
  repeat split; [exact HP | | apply newest_first_sorted].
  intros r Hr. apply (Permutation_in _ HP) in Hr.
  apply filter_In in Hr as [_ Hr]. apply andb_prop in Hr as [Hr _].
  now apply Z.eqb_eq.
Qed.

(** The list that fetchAllRequests answers holds every stored request of
    the given fund, and every stored request when no fund is given: each
    once, the newest first. The store is not written. *)
Theorem fetchAllRequests_every_request_newest_first
        (investmentFundId : option Id) (db : Store) :
  let '(answer, db') := fetchAllRequests investmentFundId db in
  db' = db /\
  list_status answer = 200 /\
  Permutation (list_requests answer)
    (filter (in_fund investmentFundId) (investmentFundRequests db)) /\
  (investmentFundId = None ->
   Permutation (list_requests answer) (investmentFundRequests db)) /\
  StronglySorted (fun a b => createdAt b <= createdAt a) (list_requests answer).
Proof.
  unfold fetchAllRequests. cbn [list_status list_requests].
  repeat split; [| |apply newest_first_sorted].
  - unfold newest_first. now rewrite sort_by_perm, where_defined_filter.
  - intros ->. unfold newest_first. now rewrite sort_by_perm.
Qed.

End Listings.

(** [InvestmentFundShares.query().where('userId', req.user.id)] *)
Definition fetchShares (user : User) (db : Store)
  : Z * list InvestmentFundShares * Store :=
  (200, where_ (fun s => shares_userId s =? user_id user)
               (investmentFundShares db), db).

Section SharesAndPerformance.
Context {models : Models}.

(** The two reports of a user agree: every entry of the performance
    report stands on a share row that fetchShares lists for the same
    user, with the same fund and the same amount. *)
Theorem fetchPerformance_within_fetchShares (user : User) (db db' : Store)
        (performance : list PerformanceEntry) (entry : PerformanceEntry) :
  fetchPerformance user db
    = (Responded (json 200 (SuccessPerformance performance)), db') ->
  In entry performance ->
  exists share,
    In share (snd (fst (fetchShares user db))) /\
    shares_investmentFundId share = entry_investmentFundId entry /\
    shares_amount share = entry_shares entry.
Proof.
  intros H Hin.
  destruct (fetchPerformance_entry_origin user db db' performance entry H Hin)
    as (f & share & _ & Hs & Hid & Hfund & Huser & _ & Hamount).
  exists share. cbn [fetchShares fst snd]. repeat split; try congruence.
  apply filter_In. split; [assumption|]. now apply Z.eqb_eq.
Qed.

End SharesAndPerformance.

Lemma fetchPerformance_within_fetchShares_witness :
  exists share,
    In share (snd (fst (fetchShares alice sample_store))) /\
    shares_investmentFundId share = 10 /\
    shares_amount share = bn "250".
Proof.
  apply (@fetchPerformance_within_fetchShares sample_models alice sample_store
           sample_store
           [entry_of (figures (bn "100") (num "0.3") (bn "250") (bn "2")) "250"]
           (entry_of (figures (bn "100") (num "0.3") (bn "250") (bn "2")) "250")
           ltac:(by_computation) ltac:(now left)).
Defined.

(** ** createInvestmentFund, patchInvestmentFund: what reaches the table *)

#[local] Set Warnings "-register-all".

(** Parsed request bodies. An object is the list of its own properties. *)
Inductive Json :=
| Prim (v : JSValue)
| Arr (items : list Json)
| Obj (fields : list (string * Json)).

Definition JsObject := list (string * Json).

(** [o[k]], [None] for undefined. *)
Fixpoint property (o : JsObject) (k : string) : option Json :=
  match o with
  | [] => None
  | (k', v) :: rest => if (k' =? k)%string then Some v else property rest k
  end.

Definition json_truthy (j : Json) : bool :=
  match j with
  | Prim v => truthy v
  | _ => true
  end.

(** [{ ...o, [k]: v }] *)
Fixpoint set_property (o : JsObject) (k : string) (v : Json) : JsObject :=
  match o with
  | [] => [(k, v)]
  | (k', v') :: rest =>
      if (k' =? k)%string then (k', v) :: rest
      else (k', v') :: set_property rest k v
  end.

(** [{ ...o, ...extra }] *)
Definition spread (o extra : JsObject) : JsObject :=
  fold_left (fun acc kv => set_property acc (fst kv) (snd kv)) extra o.

(** lodash [pick(object, paths)] for plain property names, none of which
    is a property of Object.prototype, of an array or of a string (the
    column names below are such): the listed properties that the object
    has, in the order of the list. *)
Definition pick (object : Json) (paths : list string) : JsObject :=
  match object with
  | Obj fields =>
      flat_map (fun k => match property fields k with
                         | Some v => [(k, v)]
                         | None => []
                         end) paths
  | _ => []
  end.

(** The columns that both handlers pick. *)
Definition fund_columns : list string :=
  [ "name"; "currencyCode"; "shortDescription"; "detailedDescription";
    "riskLevel"; "redemptionWaitTime"; "balanceUpdateStrategy";
    "annualPercentageRate"; "managedBy" ].

(** [req.body.investmentFund || req.body] *)
Definition fund_of_body (body : JsObject) : Json :=
  match property body "investmentFund" with
  | Some j => if json_truthy j then j else Obj body
  | None => Obj body
  end.

Definition json_of_id (i : Id) : Json := Prim (JNum (Number.of_Z i)).

(** The object that createInvestmentFund hands to [insert]:
    [{ creatorId: req.user.id, ...args }]. *)
Definition createInvestmentFund_insert (user : User) (body : JsObject)
  : JsObject :=
  spread [("creatorId", json_of_id (user_id user))]
         (pick (fund_of_body body) fund_columns).

(** patchInvestmentFund: the 404 for a missing fund, or the fund to
    update together with the object handed to [update]. *)
Definition patchInvestmentFund_update (id : Id) (body : JsObject) (db : Store)
  : Response + InvestmentFund * JsObject :=
  let args := pick (fund_of_body body) fund_columns in
  match first (where_ (fun f => fund_id f =? id) (investmentFunds db)) with
  | None => inl (json 404 (Failure "Investment fund not found"))
  | Some investmentFund => inr (investmentFund, args)
  end.

Definition own_property (j : Json) (k : string) : option Json :=
  match j with
  | Obj fields => property fields k
  | _ => None
  end.

Lemma property_set_property (o : JsObject) (k k' : string) (v : Json) :
  property (set_property o k v) k'
    = if (k =? k')%string then Some v else property o k'.
Proof.
  induction o as [|[k0 v0] o IH]; simpl.
  - reflexivity.
  - destruct (k0 =? k)%string eqn:E; simpl.
    + apply String.eqb_eq in E. subst k0.
      now destruct (k =? k')%string.
    + rewrite IH. destruct (k0 =? k')%string eqn:E'; [|reflexivity].
      apply String.eqb_eq in E'. subst k0.
      destruct (k =? k')%string eqn:E''; [|reflexivity].
      apply String.eqb_eq in E''. subst k. now rewrite String.eqb_refl in E.
Qed.

Lemma property_spread (o extra : JsObject) (k : string) :
  property (spread o extra) k
    = match property (rev extra) k with
      | Some v => Some v
      | None => property o k
      end.
Proof.
  unfold spread. revert o.
  induction extra as [|[k0 v0] extra IH]; intros o; simpl; [reflexivity|].
  rewrite IH, property_set_property.
  assert (Happ : forall a b, property (a ++ b)%list k
                   = match property a k with
                     | Some v => Some v
                     | None => property b k
                     end).
  { intros a b. induction a as [|[ka va] a IHa]; simpl; [reflexivity|].
    now destruct (ka =? k)%string. }
  rewrite Happ. simpl.
  destruct (property (rev extra) k); [reflexivity|].
  now destruct (k0 =? k)%string.
Qed.

Lemma property_pick_keys (object : Json) (paths : list string) (k : string)
      (v : Json) :
  In (k, v) (pick object paths) -> In k paths /\ own_property object k = Some v.
Proof.
  destruct object as [p|items|fields]; simpl; try tauto.
  intros H. apply in_flat_map in H as (k0 & Hk0 & H).
  destruct (property fields k0) eqn:E; [|destruct H].
  destruct H as [[= <- <-]|[]]. auto.
Qed.

Lemma property_In (o : JsObject) (k : string) (v : Json) :
  property o k = Some v -> In (k, v) o.
Proof.
  induction o as [|[k0 v0] o IH]; simpl; [discriminate|].
  destruct (k0 =? k)%string eqn:E.
  - apply String.eqb_eq in E. intros [= ->]. subst. now left.
  - auto.
Qed.

Lemma property_pick (object : Json) (paths : list string) (k : string) :
  property (pick object paths) k
    = if existsb (String.eqb k) paths then own_property object k else None.
Proof.
  destruct object as [p|items|fields]; simpl;
    try (now destruct (existsb _ paths)).
  induction paths as [|p paths IH]; simpl; [reflexivity|].
  destruct (property fields p) as [v|] eqn:E; simpl.
  - destruct (p =? k)%string eqn:Ek.
    + apply String.eqb_eq in Ek. subst p. now rewrite String.eqb_refl.
    + rewrite String.eqb_sym, Ek. exact IH.
  - destruct (k =? p)%string eqn:Ek; simpl; [|exact IH].
    apply String.eqb_eq in Ek. subst p. rewrite IH, E.
    now destruct (existsb _ paths).
Qed.

Lemma property_rev_pick (object : Json) (paths : list string) (k : string) :
  property (rev (pick object paths)) k = None <->
  property (pick object paths) k = None.
Proof.
  assert (H : forall o : JsObject,
             property o k = None <-> forall v, ~ In (k, v) o).
  { induction o as [|[k0 v0] o IH]; simpl.
    - split; [intros _ v [] | reflexivity].
    - destruct (k0 =? k)%string eqn:E.
      + apply String.eqb_eq in E. subst k0. split; [discriminate|].
        intros H. exfalso. apply (H v0). now left.
      + rewrite IH. apply String.eqb_neq in E. split.
        * intros H v [[= -> _]|Hin]; [congruence | exact (H v Hin)].
        * intros H v Hin. apply (H v). now right. }
  rewrite !H. split; intros Hn v Hin; apply (Hn v).
  - now apply -> in_rev.
  - now apply <- in_rev.
Qed.

(** Whatever the body says, the fund row that createInvestmentFund inserts
    has the requesting user as creatorId; of the body it takes the nine
    listed columns (from [body.investmentFund] when that is there, from
    the body itself otherwise) and nothing else: no id, no sharePrice, no
    creatorId of the caller's choice. *)
Theorem createInvestmentFund_creator_and_columns (user : User)
        (body : JsObject) (k : string) :
  property (createInvestmentFund_insert user body) "creatorId"
    = Some (json_of_id (user_id user)) /\
  (existsb (String.eqb k) ("creatorId" :: fund_columns) = false ->
   property (createInvestmentFund_insert user body) k = None) /\
  (existsb (String.eqb k) fund_columns = true ->
   property (createInvestmentFund_insert user body) k
     = own_property (fund_of_body body) k).
Proof.
  unfold createInvestmentFund_insert.
  assert (Hrev : forall k',
    existsb (String.eqb k') fund_columns = false ->
    property (rev (pick (fund_of_body body) fund_columns)) k' = None).
  { intros k' Hk'. apply property_rev_pick. now rewrite property_pick, Hk'. }
  split; [|split].
  - rewrite property_spread, Hrev; reflexivity.
  - intros Hk. cbn [existsb] in Hk. apply orb_false_elim in Hk as [Hc Hk].
    rewrite property_spread, (Hrev k Hk). cbn [property].
    now rewrite String.eqb_sym, Hc.
  - intros Hk. rewrite property_spread.
    destruct (property (rev (pick (fund_of_body body) fund_columns)) k)
      as [v1|] eqn:E.
    + apply property_In, in_rev, property_pick_keys in E as [_ E]. now symmetry.
    + apply property_rev_pick in E. rewrite property_pick, Hk in E.
      rewrite E. cbn [property].
      destruct ("creatorId" =? k)%string eqn:Ec; [|reflexivity].
      apply String.eqb_eq in Ec. subst k. discriminate Hk.
Qed.

(** patchInvestmentFund answers 404 exactly when no fund has the id;
    otherwise the update goes to a fund with that id and carries only
    listed columns, each with the value the body gives it: the id, the
    sharePrice and the creatorId of a fund cannot be patched. *)
Theorem patchInvestmentFund_listed_columns_only (id : Id) (body : JsObject)
        (db : Store) :
  match patchInvestmentFund_update id body db with
  | inl response =>
      response = json 404 (Failure "Investment fund not found") /\
      forall f, In f (investmentFunds db) -> fund_id f <> id
  | inr (investmentFund, args) =>
      In investmentFund (investmentFunds db) /\
      fund_id investmentFund = id /\
      forall k v, In (k, v) args ->
        In k fund_columns /\ own_property (fund_of_body body) k = Some v
  end.
Proof.
  unfold patchInvestmentFund_update.
  destruct (first (where_ _ (investmentFunds db))) as [fund|] eqn:E.
  - apply first_where_In in E as [Hin Hid]. apply Z.eqb_eq in Hid.
    split; [assumption|]. split; [assumption|].
    intros k v H. now apply property_pick_keys.
  - split; [reflexivity|]. intros f Hf.
    apply Z.eqb_neq. exact (first_where_none _ _ E f Hf).
Qed.

(** ** translateFund, fetchTranslations *)

(** A row of the table investment_fund_translations. *)
Record Translation := mkTranslation {
  translation_investmentFundId : Id;
  translation_locale : string;
  translation_name : JSValue;
  translation_shortDescription : JSValue;
  translation_detailedDescription : JSValue
}.

Definition same_key (investmentFundId : Id) (locale : string) (t : Translation)
  : bool :=
  (translation_investmentFundId t =? investmentFundId) &&
  (translation_locale t =? locale)%string.

(** [update(data)] leaves out the columns whose value is undefined. *)
Definition updated (old new : JSValue) : JSValue :=
  match new with
  | JUndefined => old
  | _ => new
  end.

Definition is_undefined (v : JSValue) : bool :=
  match v with
  | JUndefined => true
  | _ => false
  end.

(** The row after [update({ name, shortDescription, detailedDescription })]. *)
Definition retranslated (name shortDescription detailedDescription : JSValue)
           (t : Translation) : Translation :=
  mkTranslation (translation_investmentFundId t) (translation_locale t)
    (updated (translation_name t) name)
    (updated (translation_shortDescription t) shortDescription)
    (updated (translation_detailedDescription t) detailedDescription).

Section Translations.

(** What the table stores in a column for which an insert gives undefined. *)
Variable column_default : string -> JSValue.
(** The error of the database when it rejects a row (a fund that does not
    exist, a column that may not be null), if it does. *)
Variable rejects : Translation -> option Exn.

Definition inserted (column : string) (v : JSValue) : JSValue :=
  match v with
  | JUndefined => column_default column
  | _ => v
  end.

(** The error of a statement that writes these rows: that of the first
    row the database rejects. *)
Fixpoint first_error (written : list Translation) : option Exn :=
  match written with
  | [] => None
  | t :: rest =>
      match rejects t with
      | Some e => Some e
      | None => first_error rest
      end
  end.

(** [req.params.investmentFundId]; [req.body.locale], a string; the three
    texts of [req.body], each of which may be missing. An update whose
    values are all undefined is an error of the query builder. *)
Definition translateFund (investmentFundId : Id) (locale : string)
           (name shortDescription detailedDescription : JSValue)
           (rows : list Translation) : Outcome * list Translation :=
  match first (where_ (same_key investmentFundId locale) rows) with
  | None =>
      let row :=
        mkTranslation investmentFundId locale
                      (inserted "name" name)
                      (inserted "shortDescription" shortDescription)
                      (inserted "detailedDescription" detailedDescription) in
      match first_error [row] with
      | Some e => (Threw e, rows)
      | None => (Responded (json 200 Success), (rows ++ [row])%list)
      end
  | Some _ =>
      if is_undefined name && is_undefined shortDescription
         && is_undefined detailedDescription
      then (Threw (Error "Empty .update() call detected!"), rows)
      else
        let patch :=
          retranslated name shortDescription detailedDescription in
        match first_error
                (map patch (where_ (same_key investmentFundId locale) rows))
        with
        | Some e => (Threw e, rows)
        | None =>
            (Responded (json 200 Success),
             map (fun t => if same_key investmentFundId locale t
                           then patch t else t) rows)
        end
  end.

(** [knex('investment_fund_translations').where({ investmentFundId })] *)
Definition fetchTranslations (investmentFundId : Id) (rows : list Translation)
  : Z * list Translation :=
  (200, where_ (fun t => translation_investmentFundId t =? investmentFundId) rows).

End Translations.

Section TranslationFacts.
Variable column_default : string -> JSValue.
Variable rejects : Translation -> option Exn.
Hypothesis accepts : forall t, rejects t = None.

Lemma first_error_none (written : list Translation) :
  first_error rejects written = None.
Proof. induction written as [|t l IH]; simpl; [|rewrite accepts]; auto. Qed.

Lemma inserted_defined (column : string) (v : JSValue) :
  is_undefined v = false -> inserted column_default column v = v.
Proof. now destruct v. Qed.

Lemma updated_defined (old v : JSValue) :
  is_undefined v = false -> updated old v = v.
Proof. now destruct v. Qed.

Lemma same_key_rows (investmentFundId : Id) (locale : string)
      (patch : Translation -> Translation) (rows : list Translation) :
  (forall t, same_key investmentFundId locale (patch t)
             = same_key investmentFundId locale t) ->
  filter (same_key investmentFundId locale)
         (map (fun t => if same_key investmentFundId locale t
                        then patch t else t) rows)
    = map patch (filter (same_key investmentFundId locale) rows) /\
  filter (fun t => negb (same_key investmentFundId locale t))
         (map (fun t => if same_key investmentFundId locale t
                        then patch t else t) rows)
    = filter (fun t => negb (same_key investmentFundId locale t)) rows.
Proof.
  intros Hp. induction rows as [|t l [IH1 IH2]]; simpl; [auto|].
  destruct (same_key investmentFundId locale t) eqn:E; simpl.
  - rewrite Hp, E. simpl. now rewrite IH1, IH2.
  - rewrite E. simpl. now rewrite IH1, IH2.
Qed.

Lemma translateFund_rows (investmentFundId : Id)
        (locale : string) (name shortDescription detailedDescription : JSValue)
        (rows : list Translation) :
  is_undefined name = false ->
  is_undefined shortDescription = false ->
  is_undefined detailedDescription = false ->
  let '(outcome, rows') :=
    translateFund column_default rejects investmentFundId locale
                  name shortDescription detailedDescription rows in
  let translation :=
    mkTranslation investmentFundId locale name shortDescription
                  detailedDescription in
  outcome = Responded (json 200 Success) /\
  In translation (snd (fetchTranslations investmentFundId rows')) /\
  (forall t, In t rows' -> same_key investmentFundId locale t = true ->
             t = translation) /\
  filter (fun t => negb (same_key investmentFundId locale t)) rows'
    = filter (fun t => negb (same_key investmentFundId locale t)) rows /\
  List.length (filter (same_key investmentFundId locale) rows')
    = Nat.max 1 (List.length (filter (same_key investmentFundId locale) rows)).
Proof.
  intros Hn Hs Hd. unfold translateFund.
  destruct (first (where_ _ rows)) as [t0|] eqn:E.
  - rewrite Hn. cbn [andb]. rewrite first_error_none.
    cbv zeta.
    set (patch := retranslated name shortDescription detailedDescription).
    assert (Hkey : forall t, same_key investmentFundId locale t = true ->
                             patch t = mkTranslation investmentFundId locale name
                                         shortDescription detailedDescription).
    { intros t Ht. unfold patch, retranslated.
      rewrite !updated_defined by assumption.
      apply andb_prop in Ht as [Hf Hl].
      apply Z.eqb_eq in Hf. apply String.eqb_eq in Hl. now rewrite Hf, Hl. }
    destruct (same_key_rows investmentFundId locale patch rows) as [Hsame Hother].
    { intros t. reflexivity. }
    apply first_where_In in E as [Hin0 Hk0].
    split; [reflexivity|]. split; [|split; [|split]].
    + cbn [fetchTranslations snd]. apply filter_In. split; [|apply Z.eqb_refl].
      apply in_map_iff. exists t0. rewrite Hk0.
      split; [exact (Hkey t0 Hk0) | assumption].
    + intros t Ht Hk. apply in_map_iff in Ht as (t1 & <- & Ht1).
      destruct (same_key investmentFundId locale t1) eqn:E1;
        [exact (Hkey t1 E1) | congruence].
    + exact Hother.
    + rewrite Hsame, length_map.
      assert (Hpos : In t0 (filter (same_key investmentFundId locale) rows))
        by (apply filter_In; auto).
      destruct (filter (same_key investmentFundId locale) rows); [destruct Hpos|].
      simpl. lia.
  - rewrite first_error_none, !inserted_defined by assumption.
    assert (Hnone : filter (same_key investmentFundId locale) rows = []).
    { unfold first, where_ in E. now destruct (filter _ rows). }
    assert (Hself : same_key investmentFundId locale
                      (mkTranslation investmentFundId locale name
                                     shortDescription detailedDescription) = true).
    { unfold same_key. cbn. now rewrite Z.eqb_refl, String.eqb_refl. }
    split; [reflexivity|]. split; [|split; [|split]].
    + cbn [fetchTranslations snd]. apply filter_In.
      split; [apply in_or_app; right; now left | apply Z.eqb_refl].
    + intros t Ht Hk. apply in_app_or in Ht as [Ht|[<-|[]]]; [|reflexivity].
      exfalso. assert (In t (filter (same_key investmentFundId locale) rows))
        by (apply filter_In; auto).
      rewrite Hnone in H. destruct H.
    + rewrite filter_app. cbn [filter]. rewrite Hself. cbn. now rewrite app_nil_r.
    + rewrite filter_app, Hnone. cbn [filter]. rewrite Hself. reflexivity.
Qed.


(** After a translation with its three texts given, which the database
    accepts, the translations of the fund hold the locale with exactly
    these texts; the rows of every other fund or locale are as before; and
    the locale has one row if it had none, and as many as it had
    otherwise: translating again never adds a second row. *)
Theorem translateFund_then_fetchTranslations (investmentFundId : Id)
        (locale : string) (name shortDescription detailedDescription : JSValue)
        (rows : list Translation) :
  is_undefined name = false ->
  is_undefined shortDescription = false ->
  is_undefined detailedDescription = false ->
  let '(outcome, rows') :=
    translateFund column_default rejects investmentFundId locale
                  name shortDescription detailedDescription rows in
  let translation :=
    mkTranslation investmentFundId locale name shortDescription
                  detailedDescription in
  outcome = Responded (json 200 Success) /\
  In translation (snd (fetchTranslations investmentFundId rows')) /\
  (forall t, In t rows' -> same_key investmentFundId locale t = true ->
             t = translation) /\
  filter (fun t => negb (same_key investmentFundId locale t)) rows'
    = filter (fun t => negb (same_key investmentFundId locale t)) rows /\
  List.length (filter (same_key investmentFundId locale) rows')
    = Nat.max 1 (List.length (filter (same_key investmentFundId locale) rows)).
Proof. apply translateFund_rows. Qed.

(** Translating twice with the same texts is translating once. *)
Theorem translateFund_idempotent (investmentFundId : Id)
        (locale : string) (name shortDescription detailedDescription : JSValue)
        (rows : list Translation) :
  is_undefined name = false ->
  is_undefined shortDescription = false ->
  is_undefined detailedDescription = false ->
  let once :=
    translateFund column_default rejects investmentFundId locale
                  name shortDescription detailedDescription rows in
  translateFund column_default rejects investmentFundId locale
                name shortDescription detailedDescription (snd once) = once.
Proof.
  intros Hn Hs Hd.
  pose proof (translateFund_rows investmentFundId locale name shortDescription
                detailedDescription rows Hn Hs Hd) as H.
  cbv zeta. destruct (translateFund _ _ _ _ _ _ _ rows) as [outcome rows'].
  destruct H as (-> & Hin & Hall & _). cbn [snd].
  cbn [fetchTranslations snd] in Hin. apply filter_In in Hin as [Hin _].
  unfold translateFund.
  destruct (first (where_ _ rows')) as [t0|] eqn:E.
  - rewrite Hn. cbn [andb]. rewrite first_error_none. f_equal.
    rewrite <- (map_id rows') at 2. apply map_ext_in.
    intros t Ht. destruct (same_key investmentFundId locale t) eqn:Ek; [|reflexivity].
    rewrite (Hall t Ht Ek). unfold retranslated. cbn.
    now rewrite !updated_defined by assumption.
  - exfalso. apply (first_where_none _ _ E) in Hin.
    unfold same_key in Hin. cbn in Hin.
    now rewrite Z.eqb_refl, String.eqb_refl in Hin.
Qed.

End TranslationFacts.

Lemma translateFund_then_fetchTranslations_witness :
  snd (fetchTranslations 10
         (snd (translateFund (fun _ => JNull) (fun _ => None) 10 "fr"
                 (JStr "Fonds") (JStr "court") (JStr "long")
                 [ mkTranslation 10 "fr" (JStr "Fund") JNull JNull;
                   mkTranslation 10 "de" (JStr "Fonds") JNull JNull ])))
  = [ mkTranslation 10 "fr" (JStr "Fonds") (JStr "court") (JStr "long");
      mkTranslation 10 "de" (JStr "Fonds") JNull JNull ].
Proof.
  generalize (translateFund_then_fetchTranslations
                (fun _ => JNull) (fun _ => None) (fun _ => eq_refl) 10 "fr"
                (JStr "Fonds") (JStr "court") (JStr "long")
                [ mkTranslation 10 "fr" (JStr "Fund") JNull JNull;
                  mkTranslation 10 "de" (JStr "Fonds") JNull JNull ]
                eq_refl eq_refl eq_refl).
  vm_compute. intros _. reflexivity.
Defined.

Lemma translateFund_idempotent_witness :
  let once :=
    translateFund (fun _ => JNull) (fun _ => None) 10 "fr"
                  (JStr "Fonds") (JStr "court") (JStr "long") [] in
  translateFund (fun _ => JNull) (fun _ => None) 10 "fr"
                (JStr "Fonds") (JStr "court") (JStr "long") (snd once) = once.
Proof.
  exact (translateFund_idempotent
           (fun _ => JNull) (fun _ => None) (fun _ => eq_refl) 10 "fr"
           (JStr "Fonds") (JStr "court") (JStr "long") []
           eq_refl eq_refl eq_refl).
Defined.

(** * The utilities *)

(** ** percentDifference *)

(** What the callers pass: a number or a string, or a BigNumber. *)
Inductive Numeric :=
| Plain (v : JSValue)
| Big (x : BigNumber.t).

(** [new BigNumber(a)] *)
Definition BigNumber_new (a : Numeric) : BigNumber.t :=
  match a with
  | Plain v => BigNumber.of_js v
  | Big x => x
  end.

Definition percentDifference (a b : Numeric) : BigNumber.t :=
  let first := BigNumber_new a in
  let second := BigNumber_new b in
  BigNumber.dividedBy (BigNumber.minus second first) first.

Lemma make_finite (neg : bool) (c e : Z) :
  BigNumber.isFinite (BigNumber.make neg c e) = true.
Proof.
  unfold BigNumber.make. destruct (c =? 0); [reflexivity|].
  now destruct (BigNumber.strip _ c e).
Qed.

Lemma of_signed_finite (zero_neg : bool) (z e : Z) :
  BigNumber.isFinite (BigNumber.of_signed zero_neg z e) = true.
Proof.
  unfold BigNumber.of_signed. destruct (z =? 0); [reflexivity|].
  apply make_finite.
Qed.

(** A base of zero never gives a finite percentage, and never an error:
    the result is NaN, Infinity or -Infinity. *)
Theorem percentDifference_from_zero (a b : Numeric) :
  BigNumber.isZero (BigNumber_new a) = true ->
  BigNumber.isFinite (percentDifference a b) = false.
Proof.
  unfold percentDifference.
  destruct (BigNumber_new a) as [| |sa ca ea]; try discriminate.
  cbn [BigNumber.isZero]. intros Hz.
  destruct (BigNumber_new b) as [|sb|sb cb eb]; cbn [BigNumber.minus].
  - reflexivity.
  - reflexivity.
  - destruct (BigNumber.align _ _ _ _) as [[z1 z2] e].
    pose proof (of_signed_finite (sb && negb sa)
                  (BigNumber.signed sb z1 - BigNumber.signed sa z2) e) as Hf.
    destruct (BigNumber.of_signed _ _ _) as [| |s c e']; try discriminate.
    cbn [BigNumber.dividedBy]. rewrite Hz. now destruct (c =? 0)%N.
Qed.

(** From a finite value other than zero to the same value the difference
    is zero. *)
Theorem percentDifference_of_no_change (a : Numeric) :
  BigNumber.isFinite (BigNumber_new a) = true ->
  BigNumber.isZero (BigNumber_new a) = false ->
  BigNumber.isZero (percentDifference a a) = true.
Proof.
  unfold percentDifference.
  destruct (BigNumber_new a) as [| |sa ca ea]; try discriminate.
  intros _ Hz. cbn [BigNumber.isZero] in Hz.
  cbn [BigNumber.minus BigNumber.align].
  rewrite Z.sub_diag. cbn [BigNumber.of_signed Z.eqb BigNumber.dividedBy].
  rewrite Hz. reflexivity.
Qed.

Lemma percentDifference_from_zero_witness :
  percentDifference (Plain (num "0")) (Plain (JStr "12.5"))
    = BigNumber.Infinity false.
Proof.
  generalize (percentDifference_from_zero (Plain (num "0")) (Plain (JStr "12.5"))
                ltac:(by_computation)).
  vm_compute. reflexivity.
Defined.

Lemma percentDifference_of_no_change_witness :
  percentDifference (Plain (JStr "-12.5")) (Plain (JStr "-12.5"))
    = BigNumber.Finite true 0 0.
Proof.
  generalize (percentDifference_of_no_change (Plain (JStr "-12.5"))
                ltac:(by_computation) ltac:(by_computation)).
  vm_compute. reflexivity.
Defined.

(** ** daysBetween, hoursBetween *)

(** [Math.abs] *)
Definition Math_abs (x : Number.t) : Number.t :=
  match x with
  | Number.NaN => Number.NaN
  | Number.Infinity _ => Number.Infinity false
  | Number.Finite _ m e => Number.Finite false m e
  end.

(** The [/] operator on numbers: the exact quotient, rounded. *)
Definition Number_div (x y : Number.t) : Number.t :=
  match x, y with
  | Number.NaN, _ | _, Number.NaN => Number.NaN
  | Number.Infinity _, Number.Infinity _ => Number.NaN
  | Number.Infinity a, Number.Finite b _ _ => Number.Infinity (xorb a b)
  | Number.Finite a _ _, Number.Infinity b =>
      Number.Finite (xorb a b) 0 Number.emin
  | Number.Finite a m1 e1, Number.Finite b m2 e2 =>
      if m2 =? 0
      then (if m1 =? 0 then Number.NaN else Number.Infinity (xorb a b))
      else
        let e := Z.min e1 e2 in
        Number.of_ratio (xorb a b) (m1 * 2 ^ (e1 - e)) (m2 * 2 ^ (e2 - e))
  end.

(** [Math.round]: the nearest integer, the upper one of two; a number
    that is an integer already, an infinity and NaN are returned as they
    are, and a zero result keeps the sign of the argument. *)
Definition Math_round (x : Number.t) : Number.t :=
  match x with
  | Number.Finite neg m e =>
      if 0 <=? e then x
      else
        let r := (2 * Number.signed neg m + 2 ^ (- e)) / 2 ^ (1 - e) in
        if r =? 0 then Number.Finite neg 0 Number.emin else Number.of_Z r
  | _ => x
  end.

(** A Date object: its time value in milliseconds, [None] for an invalid
    date. *)
Definition Date := option Z.

Definition getTime (d : Date) : Number.t :=
  match d with
  | Some t => Number.of_Z t
  | None => Number.NaN
  end.

Definition daysBetween (date1 date2 : Date) : Number.t :=
  let day := Number.of_Z (1000 * 60 * 60 * 24) in
  let date1Millis := getTime date1 in
  let date2Millis := getTime date2 in
  let diff := Math_abs (Number.sub date1Millis date2Millis) in
  Math_round (Number_div diff day).

Definition hoursBetween (date1 date2 : Date) : Number.t :=
  let hour := Number.of_Z (1000 * 60 * 60) in
  let date1Millis := getTime date1 in
  let date2Millis := getTime date2 in
  let diff := Math_abs (Number.sub date1Millis date2Millis) in
  Math_round (Number_div diff hour).

Lemma Math_abs_of_ratio (neg : bool) (n d : Z) :
  Math_abs (Number.of_ratio neg n d) = Number.of_ratio false n d.
Proof.
  unfold Number.of_ratio. destruct (n =? 0); [reflexivity|].
  destruct (scale2 n d _) as [a b].
  destruct (if round_half_even a b =? 2 ^ 53 then _ else _) as [m e].
  now destruct (Number.emax <? e).
Qed.

Lemma Math_abs_sub_sym (x y : Number.t) :
  Math_abs (Number.sub x y) = Math_abs (Number.sub y x).
Proof.
  destruct x as [|a|a m1 e1], y as [|b|b m2 e2]; try reflexivity.
  - now destruct a, b.
  - cbn [Number.sub]. rewrite (Z.min_comm e2 e1).
    set (e := Z.min e1 e2).
    set (z1 := Number.signed a m1 * 2 ^ (e1 - e)).
    set (z2 := Number.signed b m2 * 2 ^ (e2 - e)).
    destruct (z1 - z2 =? 0) eqn:E.
    + apply Z.eqb_eq in E. replace (z2 - z1 =? 0) with true; [reflexivity|].
      symmetry. apply Z.eqb_eq. lia.
    + apply Z.eqb_neq in E. replace (z2 - z1 =? 0) with false.
      2: { symmetry. apply Z.eqb_neq. lia. }
      unfold Number.of_dyadic. rewrite !Math_abs_of_ratio.
      replace (Z.abs (z2 - z1)) with (Z.abs (z1 - z2)) by lia. reflexivity.
Qed.

(** The two differences do not depend on the order of the dates, valid or
    not. *)
Theorem daysBetween_hoursBetween_symmetric (date1 date2 : Date) :
  daysBetween date1 date2 = daysBetween date2 date1 /\
  hoursBetween date1 date2 = hoursBetween date2 date1.
Proof.
  unfold daysBetween, hoursBetween. cbv zeta.
  now rewrite (Math_abs_sub_sym (getTime date1) (getTime date2)).
Qed.

(** *** Rounding of the quotient *)

Lemma round_half_even_bounds (a b : Z) :
  0 < b ->
  2 * a - b <= 2 * round_half_even a b * b <= 2 * a + b.
Proof.
  intros Hb. unfold round_half_even.
  pose proof (Z.div_mod a b ltac:(lia)) as Hdm.
  pose proof (Z.mod_pos_bound a b Hb) as Hm.
  destruct (Z.compare_spec (2 * (a mod b)) b); [destruct (Z.even _)|..]; nia.
Qed.

Lemma round_half_even_exact (a b : Z) :
  0 < b -> round_half_even (a * b) b = a.
Proof.
  intros Hb. unfold round_half_even.
  rewrite Z.div_mul, Z.mod_mul by lia.
  destruct (Z.compare_spec (2 * 0) b); lia.
Qed.

Lemma floor_log2_range (n d : Z) :
  Z.log2 n - Z.log2 d - 1 <= Number.floor_log2 n d <= Z.log2 n - Z.log2 d.
Proof.
  unfold Number.floor_log2. destruct (scale2 _ _ _) as [a b].
  destruct (b <=? a); lia.
Qed.

Lemma floor_log2_scaled (n d k : Z) :
  0 < n -> 0 < d -> 0 <= k ->
  Z.log2 n - Z.log2 d - 1 <= Number.floor_log2 (n * 2 ^ k) (d * 2 ^ k)
  <= Z.log2 n - Z.log2 d.
Proof.
  intros Hn Hd Hk.
  pose proof (floor_log2_range (n * 2 ^ k) (d * 2 ^ k)) as H.
  rewrite !Z.log2_mul_pow2 in H by lia. lia.
Qed.

Lemma pow2_split (e : Z) : 0 < e -> 2 ^ e = 2 * 2 ^ (e - 1).
Proof.
  intros He. replace e with (Z.succ (e - 1)) at 1 by lia.
  apply Z.pow_succ_r. lia.
Qed.

(** An integer below [2^53] is a number, whichever fraction presents it. *)
Lemma of_ratio_integer (neg : bool) (n k : Z) :
  0 < n < 2 ^ 53 -> 0 <= k ->
  exists m e,
    Number.of_ratio neg (n * 2 ^ k) (2 ^ k) = Number.Finite neg m e /\
    Number.emin <= e <= 0 /\ m = n * 2 ^ (- e).
Proof.
  intros Hn Hk.
  assert (HK : 0 < 2 ^ k) by (apply Z.pow_pos_nonneg; lia).
  unfold Number.of_ratio.
  replace (n * 2 ^ k =? 0) with false by (symmetry; apply Z.eqb_neq; nia).
  pose proof (floor_log2_scaled n 1 k ltac:(lia) ltac:(lia) Hk) as HL.
  rewrite Z.mul_1_l in HL. change (Z.log2 1) with 0 in HL.
  assert (Hlog : 0 <= Z.log2 n < 53).
  { split; [apply Z.log2_nonneg | apply Z.log2_lt_pow2; lia]. }
  set (L := Number.floor_log2 (n * 2 ^ k) (2 ^ k)) in *.
  unfold Number.emin, Number.emax.
  rewrite Z.max_l by lia.
  set (e := L - 52). assert (He : -53 <= e <= 0) by (unfold e; lia).
  unfold scale2. destruct (0 <=? e) eqn:E0.
  - assert (e = 0) by lia. replace e with 0 by lia.
    rewrite Z.pow_0_r, Z.mul_1_r, round_half_even_exact by lia.
    replace (n =? 2 ^ 53) with false by (symmetry; apply Z.eqb_neq; lia).
    exists n, 0. repeat split; lia.
  - apply Z.leb_gt in E0.
    replace (n * 2 ^ k * 2 ^ (- e)) with (n * 2 ^ (- e) * 2 ^ k) by ring.
    rewrite round_half_even_exact by lia.
    destruct (n * 2 ^ (- e) =? 2 ^ 53) eqn:Em.
    + apply Z.eqb_eq in Em.
      replace (971 <? e + 1) with false by (symmetry; apply Z.ltb_ge; lia).
      exists (2 ^ 52), (e + 1). repeat split; try lia.
      rewrite (pow2_split (- e)) in Em by lia.
      replace (- (e + 1)) with (- e - 1) by lia.
      change (2 ^ 53) with (2 * 2 ^ 52) in Em. lia.
    + replace (971 <? e) with false by (symmetry; apply Z.ltb_ge; lia).
      exists (n * 2 ^ (- e)), e. repeat split; lia.
Qed.

Lemma signed_abs (t c : Z) :
  Number.signed (t <? 0) (Z.abs t * c) = t * c.
Proof.
  unfold Number.signed. destruct (Z.ltb_spec t 0); nia.
Qed.

(** [represents x t]: the number [x] is the integer [t], in any of its
    presentations with a non-positive exponent. *)
Definition represents (x : Number.t) (t : Z) : Prop :=
  exists m e,
    x = Number.Finite (t <? 0) m e /\
    Number.emin <= e <= 0 /\ m = Z.abs t * 2 ^ (- e).

(** A time value is a number exactly. *)
Lemma of_Z_exact (t : Z) :
  Z.abs t < 2 ^ 53 -> represents (Number.of_Z t) t.
Proof.
  intros Ht. destruct (Z.eq_dec t 0) as [-> | Hnz].
  - exists 0, Number.emin. repeat split; unfold Number.emin; lia.
  - unfold Number.of_Z, Number.of_dyadic.
    change (Z.max 0 0) with 0. change (Z.max (- 0) 0) with 0.
    apply of_ratio_integer; lia.
Qed.

(** So is the difference of two integers, as long as it is below
    [2^53]. *)
Lemma sub_represents (x y : Number.t) (t1 t2 : Z) :
  represents x t1 -> represents y t2 -> Z.abs (t1 - t2) < 2 ^ 53 ->
  represents (Number.sub x y) (t1 - t2).
Proof.
  intros (m1 & e1 & -> & He1 & ->) (m2 & e2 & -> & He2 & ->) H12.
  cbn [Number.sub]. rewrite !signed_abs.
  set (e := Z.min e1 e2). assert (He : Number.emin <= e <= 0) by (unfold e; lia).
  assert (He1' : e <= e1) by (unfold e; lia).
  assert (He2' : e <= e2) by (unfold e; lia).
  rewrite <- !Z.mul_assoc, <- !Z.pow_add_r by lia.
  replace (- e1 + (e1 - e)) with (- e) by lia.
  replace (- e2 + (e2 - e)) with (- e) by lia.
  rewrite <- Z.mul_sub_distr_r.
  assert (HP : 0 < 2 ^ (- e)) by (apply Z.pow_pos_nonneg; lia).
  destruct (Z.eqb_spec ((t1 - t2) * 2 ^ (- e)) 0) as [Ez | Ez].
  - assert (E : t1 - t2 = 0) by nia. rewrite E.
    replace t2 with t1 by lia.
    exists 0, Number.emin.
    repeat split; unfold Number.emin; try lia.
    now destruct (t1 <? 0).
  - unfold Number.of_dyadic.
    rewrite Z.max_r, Z.max_l, Z.pow_0_r, Z.mul_1_r, Z.abs_mul by lia.
    rewrite (Z.abs_eq (2 ^ (- e))) by lia.
    replace ((t1 - t2) * 2 ^ (- e) <? 0) with (t1 - t2 <? 0).
    2: { destruct (Z.ltb_spec (t1 - t2) 0);
         symmetry; [apply Z.ltb_lt | apply Z.ltb_ge]; nia. }
    apply of_ratio_integer; [nia | lia].
Qed.

Lemma abs_sub_exact (t1 t2 : Z) :
  Z.abs t1 < 2 ^ 53 -> Z.abs t2 < 2 ^ 53 -> Z.abs (t1 - t2) < 2 ^ 53 ->
  exists m e,
    Math_abs (Number.sub (Number.of_Z t1) (Number.of_Z t2)) =
    Number.Finite false m e /\
    Number.emin <= e <= 0 /\ m = Z.abs (t1 - t2) * 2 ^ (- e).
Proof.
  intros H1 H2 H12.
  destruct (sub_represents _ _ t1 t2 (of_Z_exact t1 H1) (of_Z_exact t2 H2) H12)
    as (m & e & -> & He & ->).
  now exists (Z.abs (t1 - t2) * 2 ^ (- e)), e.
Qed.

(** [Math.round] of a number below [-e] binary places, by its value. *)
Lemma Math_round_value (m e r : Z) :
  e < 0 ->
  (2 * r - 1) * 2 ^ (- e) <= 2 * m < (2 * r + 1) * 2 ^ (- e) ->
  Math_round (Number.Finite false m e) = Number.of_Z r.
Proof.
  intros He Hr. unfold Math_round.
  replace (0 <=? e) with false by (symmetry; apply Z.leb_gt; lia).
  cbn [Number.signed].
  assert (HP : 0 < 2 ^ (- e)) by (apply Z.pow_pos_nonneg; lia).
  rewrite (pow2_split (1 - e)) by lia.
  replace (1 - e - 1) with (- e) by lia.
  assert (E : (2 * m + 2 ^ (- e)) / (2 * 2 ^ (- e)) = r).
  { symmetry.
    apply (Z.div_unique_pos _ _ r (2 * m + 2 ^ (- e) - 2 * 2 ^ (- e) * r));
      lia. }
  rewrite E. destruct (Z.eqb_spec r 0) as [-> |]; reflexivity.
Qed.

Section NearestUnit.

(** The unit: a whole, even number of milliseconds. *)
Variables unit half : Z.
Hypothesis unit_even : unit = 2 * half.
Hypothesis half_min : 2 <= half.
Hypothesis unit_max : unit < 2 ^ 53.

Lemma round_quotient (n k : Z) :
  0 < n < 2 ^ 53 -> 0 <= k ->
  Math_round (Number.of_ratio false (n * 2 ^ k) (unit * 2 ^ k)) =
  Number.of_Z (round_half_up n unit).
Proof.
  intros Hn Hk.
  assert (HK : 0 < 2 ^ k) by (apply Z.pow_pos_nonneg; lia).
  assert (Hu : 0 < unit) by lia.
  unfold Number.of_ratio.
  replace (n * 2 ^ k =? 0) with false by (symmetry; apply Z.eqb_neq; nia).
  pose proof (floor_log2_scaled n unit k ltac:(lia) Hu Hk) as HL.
  assert (Hlog : 0 <= Z.log2 n < 53).
  { split; [apply Z.log2_nonneg | apply Z.log2_lt_pow2; lia]. }
  assert (Hlu : 2 <= Z.log2 unit < 53).
  { split; [apply Z.log2_le_pow2 | apply Z.log2_lt_pow2]; lia. }
  pose proof (Z.log2_spec unit Hu) as Hspec.
  set (L := Number.floor_log2 (n * 2 ^ k) (unit * 2 ^ k)) in *.
  unfold Number.emin, Number.emax.
  rewrite Z.max_l by lia.
  set (e := L - 52).
  assert (He : -106 <= e <= - Z.log2 unit) by (unfold e; lia).
  unfold scale2.
  replace (0 <=? e) with false by (symmetry; apply Z.leb_gt; lia).
  set (P := 2 ^ (- e)).
  assert (HP : half < P).
  { assert (2 ^ Z.log2 unit <= P)
      by (apply Z.pow_le_mono_r; lia).
    rewrite <- Z.add_1_r, Z.pow_add_r, Z.pow_1_r in Hspec by lia. lia. }
  assert (HP2 : P = 2 * 2 ^ (- e - 1)) by (apply pow2_split; lia).
  assert (HP' : 0 < 2 ^ (- e - 1)) by (apply Z.pow_pos_nonneg; lia).
  set (m := round_half_even (n * 2 ^ k * P) (unit * 2 ^ k)).
  pose proof (round_half_even_bounds (n * 2 ^ k * P) (unit * 2 ^ k)
                ltac:(nia)) as Hm.
  fold m in Hm.
  set (r := round_half_up n unit).
  assert (Hr : 2 * unit * r <= 2 * n + unit < 2 * unit * (r + 1)).
  { unfold r, round_half_up.
    pose proof (Z.div_mod (2 * n + unit) (2 * unit) ltac:(lia)).
    pose proof (Z.mod_pos_bound (2 * n + unit) (2 * unit) ltac:(lia)).
    lia. }
  (* the bounds of [m], free of the common factor *)
  assert (Hm' : n * P - half <= 2 * m * half <= n * P + half).
  { destruct Hm as [Hlo Hhi]. split.
    - apply (Z.mul_le_mono_pos_r _ _ (2 * 2 ^ k)); [lia|].
      subst unit. nia.
    - apply (Z.mul_le_mono_pos_r _ _ (2 * 2 ^ k)); [lia|].
      subst unit. nia. }
  assert (Hval : (2 * r - 1) * P <= 2 * m < (2 * r + 1) * P).
  { subst unit. split.
    - assert (2 * ((2 * r - 1) * 2 ^ (- e - 1)) - 1 <= 2 * m); [|lia].
      apply (Z.mul_le_mono_pos_r _ _ half); [lia|]. nia.
    - apply (Z.mul_lt_mono_pos_r half); [lia|]. nia. }
  destruct (Z.eqb_spec m (2 ^ 53)) as [Em | Em].
  - replace (971 <? e + 1) with false by (symmetry; apply Z.ltb_ge; lia).
    apply Math_round_value; [lia|].
    replace (- (e + 1)) with (- e - 1) by lia.
    change (2 ^ 53) with (2 * 2 ^ 52) in Em. lia.
  - replace (971 <? e) with false by (symmetry; apply Z.ltb_ge; lia).
    apply Math_round_value; [lia | exact Hval].
Qed.

(** The quotient of a difference of time values by the unit, rounded. *)
Lemma between_nearest (t1 t2 : Z) :
  Z.abs t1 < 2 ^ 53 -> Z.abs t2 < 2 ^ 53 -> Z.abs (t1 - t2) < 2 ^ 53 ->
  Math_round
    (Number_div (Math_abs (Number.sub (Number.of_Z t1) (Number.of_Z t2)))
                (Number.of_Z unit)) =
  Number.of_Z (round_half_up (Z.abs (t1 - t2)) unit).
Proof.
  intros H1 H2 H12.
  destruct (abs_sub_exact t1 t2 H1 H2 H12) as (m1 & e1 & -> & He1 & ->).
  destruct (of_Z_exact unit ltac:(lia)) as (m2 & e2 & -> & He2 & ->).
  rewrite (Z.abs_eq unit) by lia.
  replace (unit <? 0) with false by (symmetry; apply Z.ltb_ge; lia).
  cbn [Number_div xorb].
  set (e := Z.min e1 e2).
  assert (He : Number.emin <= e <= 0) by (unfold e; lia).
  assert (He1' : e <= e1) by (unfold e; lia).
  assert (He2' : e <= e2) by (unfold e; lia).
  assert (HP2 : 0 < 2 ^ (- e2)) by (apply Z.pow_pos_nonneg; lia).
  replace (unit * 2 ^ (- e2) =? 0) with false
    by (symmetry; apply Z.eqb_neq; nia).
  rewrite <- !Z.mul_assoc, <- !Z.pow_add_r by lia.
  replace (- e1 + (e1 - e)) with (- e) by lia.
  replace (- e2 + (e2 - e)) with (- e) by lia.
  destruct (Z.eq_dec (Z.abs (t1 - t2)) 0) as [E0 | E0].
  - rewrite E0. cbn [Z.mul]. unfold round_half_up.
    rewrite Z.mul_0_r, Z.add_0_l, Z.div_small by lia.
    unfold Number.of_ratio. cbn [Z.eqb]. reflexivity.
  - apply round_quotient; lia.
Qed.

End NearestUnit.

(** For two valid dates less than [2^53] milliseconds apart the result
    is the whole number of days nearest to the exact difference, half a
    day counting as a day. *)
Theorem daysBetween_nearest_day (t1 t2 : Z) :
  Z.abs t1 <= 8640000000000000 -> Z.abs t2 <= 8640000000000000 ->
  Z.abs (t1 - t2) < 2 ^ 53 ->
  daysBetween (Some t1) (Some t2) =
  Number.of_Z (round_half_up (Z.abs (t1 - t2)) 86400000).
Proof.
  intros H1 H2 H12. unfold daysBetween, getTime. cbv zeta.
  change (1000 * 60 * 60 * 24) with 86400000.
  apply (between_nearest 86400000 43200000); lia.
Qed.

(** The same for hours: the nearest whole number of hours, half an hour
    counting as an hour. *)
Theorem hoursBetween_nearest_hour (t1 t2 : Z) :
  Z.abs t1 <= 8640000000000000 -> Z.abs t2 <= 8640000000000000 ->
  Z.abs (t1 - t2) < 2 ^ 53 ->
  hoursBetween (Some t1) (Some t2) =
  Number.of_Z (round_half_up (Z.abs (t1 - t2)) 3600000).
Proof.
  intros H1 H2 H12. unfold hoursBetween, getTime. cbv zeta.
  change (1000 * 60 * 60) with 3600000.
  apply (between_nearest 3600000 1800000); lia.
Qed.

Lemma daysBetween_nearest_day_witness :
  daysBetween (Some 1541289600000) (Some 1541160000000) = Number.of_Z 2.
Proof.
  rewrite (daysBetween_nearest_day 1541289600000 1541160000000) by lia.
  by_computation.
Defined.

Lemma hoursBetween_nearest_hour_witness :
  hoursBetween (Some (- 1800000)) (Some 3599999) = Number.of_Z 1.
Proof.
  rewrite (hoursBetween_nearest_hour (- 1800000) 3599999) by lia.
  by_computation.
Defined.

(** ** daysAgo *)

(** The [*] operator on numbers: the exact product, rounded. *)
Definition Number_mul (x y : Number.t) : Number.t :=
  match x, y with
  | Number.NaN, _ | _, Number.NaN => Number.NaN
  | Number.Infinity a, Number.Infinity b => Number.Infinity (xorb a b)
  | Number.Infinity a, Number.Finite b m _
  | Number.Finite a m _, Number.Infinity b =>
      if m =? 0 then Number.NaN else Number.Infinity (xorb a b)
  | Number.Finite a m1 e1, Number.Finite b m2 e2 =>
      if m1 * m2 =? 0 then Number.Finite (xorb a b) 0 Number.emin
      else Number.of_dyadic (xorb a b) (m1 * m2) (e1 + e2)
  end.

(** [new Date(value)] for a number: the time value is TimeClip of it,
    which is an invalid date for a number that is not finite or beyond
    8.64e15 in magnitude, and the number without its fraction
    otherwise. *)
Definition new_Date (x : Number.t) : Date :=
  match x with
  | Number.Finite neg m e =>
      if 0 <=? e then
        (if 8640000000000000 <? m * 2 ^ e then None
         else Some (Number.signed neg (m * 2 ^ e)))
      else
        (if 8640000000000000 * 2 ^ (- e) <? m then None
         else Some (Number.signed neg (m / 2 ^ (- e))))
  | _ => None
  end.

Definition oneDay : Number.t := Number.of_Z (1000 * 60 * 60 * 24).

(** [daysAgo], with the clock reading [new Date()] as an argument. *)
Definition daysAgo (now : Date) (days : JSValue) : Date :=
  new_Date (Number.sub (getTime now) (Number_mul (ToNumber days) oneDay)).

Lemma mul_represents (x y : Number.t) (t1 t2 : Z) :
  represents x t1 -> represents y t2 -> 0 < t2 ->
  Z.abs (t1 * t2) < 2 ^ 53 ->
  represents (Number_mul x y) (t1 * t2).
Proof.
  intros (m1 & e1 & -> & He1 & ->) (m2 & e2 & -> & He2 & ->) Ht2 H12.
  cbn [Number_mul].
  replace (t2 <? 0) with false by (symmetry; apply Z.ltb_ge; lia).
  rewrite Bool.xorb_false_r.
  replace (t1 <? 0) with (t1 * t2 <? 0).
  2: { destruct (Z.ltb_spec t1 0); [apply Z.ltb_lt | apply Z.ltb_ge]; nia. }
  assert (HP1 : 0 < 2 ^ (- e1)) by (apply Z.pow_pos_nonneg; lia).
  assert (HP2 : 0 < 2 ^ (- e2)) by (apply Z.pow_pos_nonneg; lia).
  replace (Z.abs t1 * 2 ^ (- e1) * (Z.abs t2 * 2 ^ (- e2)))
    with (Z.abs (t1 * t2) * 2 ^ (- (e1 + e2))).
  2: { rewrite Z.abs_mul, Z.opp_add_distr, Z.pow_add_r by lia. ring. }
  assert (HP : 0 < 2 ^ (- (e1 + e2))) by (apply Z.pow_pos_nonneg; lia).
  destruct (Z.eqb_spec (Z.abs (t1 * t2) * 2 ^ (- (e1 + e2))) 0) as [Ez | Ez].
  - assert (E : t1 = 0) by nia. subst t1.
    exists 0, Number.emin. repeat split; unfold Number.emin; lia.
  - unfold Number.of_dyadic.
    rewrite Z.max_r, Z.max_l, Z.pow_0_r, Z.mul_1_r by lia.
    apply of_ratio_integer; [nia | lia].
Qed.

Lemma new_Date_represents (x : Number.t) (t : Z) :
  represents x t -> Z.abs t <= 8640000000000000 -> new_Date x = Some t.
Proof.
  intros (m & e & -> & He & ->) Ht. unfold new_Date.
  assert (HP : 0 < 2 ^ (- e)) by (apply Z.pow_pos_nonneg; lia).
  destruct (Z.leb_spec 0 e) as [E | E].
  - replace e with 0 by lia. change (- 0) with 0.
    rewrite Z.pow_0_r, !Z.mul_1_r.
    replace (8640000000000000 <? Z.abs t) with false
      by (symmetry; apply Z.ltb_ge; lia).
    f_equal. rewrite <- (Z.mul_1_r (Z.abs t)), signed_abs. lia.
  - replace (8640000000000000 * 2 ^ (- e) <? Z.abs t * 2 ^ (- e)) with false
      by (symmetry; apply Z.ltb_ge; nia).
    rewrite Z.div_mul by lia.
    f_equal. rewrite <- (Z.mul_1_r (Z.abs t)), signed_abs. lia.
Qed.

(** For a whole number of days, within the range where the products are
    exact and the dates valid, [daysAgo] is the instant that many times
    24 hours before the clock reading, and [daysBetween] counts the days
    back. *)
Theorem daysAgo_then_daysBetween (now k : Z) :
  Z.abs now <= 8640000000000000 ->
  Z.abs k * 86400000 < 2 ^ 53 ->
  Z.abs (now - k * 86400000) <= 8640000000000000 ->
  daysAgo (Some now) (JNum (Number.of_Z k)) = Some (now - k * 86400000) /\
  daysBetween (daysAgo (Some now) (JNum (Number.of_Z k))) (Some now) =
  Number.of_Z (Z.abs k).
Proof.
  intros Hnow Hk Hago.
  assert (E : daysAgo (Some now) (JNum (Number.of_Z k)) =
              Some (now - k * 86400000)).
  { unfold daysAgo, getTime, oneDay, ToNumber.
    change (1000 * 60 * 60 * 24) with 86400000.
    apply new_Date_represents; [|exact Hago].
    apply sub_represents; [apply of_Z_exact; lia | | lia].
    apply mul_represents; [apply of_Z_exact; lia | apply of_Z_exact; lia
                          | lia | rewrite Z.abs_mul; lia]. }
  split; [exact E|]. rewrite E.
  unfold daysBetween, getTime. cbv zeta.
  change (1000 * 60 * 60 * 24) with 86400000.
  rewrite (between_nearest 86400000 43200000) by lia.
  f_equal. unfold round_half_up.
  replace (now - k * 86400000 - now) with (- k * 86400000) by lia.
  rewrite Z.abs_mul, Z.abs_opp. change (Z.abs 86400000) with 86400000.
  symmetry. apply (Z.div_unique_pos _ _ _ 86400000); lia.
Qed.

Lemma daysAgo_then_daysBetween_witness :
  daysAgo (Some 1541289600000) (JNum (Number.of_Z 3)) = Some 1541030400000 /\
  daysBetween (Some 1541030400000) (Some 1541289600000) = Number.of_Z 3.
Proof.
  destruct (daysAgo_then_daysBetween 1541289600000 3) as [E Hb]; try lia.
  rewrite E in Hb. split; [exact E | exact Hb].
Defined.

(** * The order of the performance report *)

Section SortByOn.
Context {A : Type} (le : A -> A -> bool) (P : A -> Prop).
Hypothesis le_total :
  forall a b, P a -> P b -> le a b = true \/ le b a = true.
Hypothesis le_trans :
  forall a b c, P a -> P b -> P c ->
                le a b = true -> le b c = true -> le a c = true.

Lemma insert_sorted_sorted_on (x : A) (l : list A) :
  P x -> Forall P l ->
  StronglySorted (fun a b => le a b = true) l ->
  StronglySorted (fun a b => le a b = true) (insert_sorted le x l).
Proof.
  intros Hx HP Hs. induction Hs as [|y t Ht IH Hy]; simpl.
  - repeat constructor.
  - apply Forall_cons_iff in HP as [Py Pt].
    destruct (le x y) eqn:E.
    + constructor; [now constructor|].
      constructor; [assumption|].
      rewrite Forall_forall in Hy, Pt |- *. intros z Hz.
      apply (le_trans x y z); auto.
    + constructor; [now apply IH|].
      rewrite Forall_forall in Hy |- *. intros z Hz.
      apply (Permutation_in _ (insert_sorted_perm le x t)) in Hz.
      destruct Hz as [<-|Hz]; [|auto].
      destruct (le_total x y Hx Py) as [H|H]; [congruence | assumption].
Qed.

Lemma sort_by_sorted_on (l : list A) :
  Forall P l -> StronglySorted (fun a b => le a b = true) (sort_by le l).
Proof.
  unfold sort_by. induction l as [|x l IH]; simpl; intros HP; [constructor|].
  apply Forall_cons_iff in HP as [Px Pl].
  apply insert_sorted_sorted_on; auto.
  rewrite Forall_forall in Pl |- *. intros y Hy. apply Pl.
  now apply (In_sort_by le y l).
Qed.

End SortByOn.

(** The order of numbers by value; NaN compares with nothing. *)
Definition Number_le (x y : Number.t) : Prop :=
  match x, y with
  | Number.NaN, _ | _, Number.NaN => False
  | Number.Infinity true, _ | _, Number.Infinity false => True
  | Number.Infinity false, _ | _, Number.Infinity true => False
  | Number.Finite a m1 e1, Number.Finite b m2 e2 =>
      let e := Z.min e1 e2 in
      Number.signed a m1 * 2 ^ (e1 - e) <= Number.signed b m2 * 2 ^ (e2 - e)
  end.

(** A number other than NaN, its exponent within the format. *)
Definition is_number (x : Number.t) : Prop :=
  match x with
  | Number.NaN => False
  | Number.Infinity _ => True
  | Number.Finite _ _ e => Number.emin <= e
  end.

Lemma scale2_ge_one (n d k : Z) :
  0 < n -> 0 < d -> k <= Z.log2 n - Z.log2 d - 1 ->
  let '(a, b) := scale2 n d k in 0 < b <= a.
Proof.
  intros Hn Hd Hk.
  pose proof (Z.log2_spec n Hn) as [Hn1 _].
  pose proof (Z.log2_spec d Hd) as [_ Hd2].
  pose proof (Z.log2_nonneg n). pose proof (Z.log2_nonneg d).
  rewrite <- Z.add_1_r in Hd2.
  unfold scale2. destruct (Z.leb_spec 0 k).
  - assert (0 < 2 ^ k) by (apply Z.pow_pos_nonneg; lia).
    split; [nia|].
    assert (2 ^ (Z.log2 d + 1) * 2 ^ k <= 2 ^ Z.log2 n).
    { rewrite <- Z.pow_add_r by lia. apply Z.pow_le_mono_r; lia. }
    nia.
  - split; [lia|].
    assert (2 ^ (Z.log2 d + 1) <= 2 ^ Z.log2 n * 2 ^ (- k)).
    { rewrite <- Z.pow_add_r by lia. apply Z.pow_le_mono_r; lia. }
    assert (0 < 2 ^ (- k)) by (apply Z.pow_pos_nonneg; lia).
    nia.
Qed.

Lemma round_half_even_pos (a b : Z) :
  0 < b <= a -> 0 < round_half_even a b.
Proof.
  intros Hab. unfold round_half_even.
  assert (0 < a / b) by (apply Z.div_str_pos; lia).
  destruct (2 * (a mod b) ?= b); [destruct (Z.even _)|..]; lia.
Qed.

(** A fraction of at least [2^-1074] does not round to zero. *)
Lemma of_ratio_nonzero (neg : bool) (n d : Z) :
  0 < n -> 0 < d -> d <= n * 2 ^ 1074 ->
  match Number.of_ratio neg n d with
  | Number.NaN => False
  | Number.Infinity b => b = neg
  | Number.Finite b m _ => b = neg /\ 0 < m
  end.
Proof.
  intros Hn Hd Hmin. unfold Number.of_ratio.
  replace (n =? 0) with false by (symmetry; apply Z.eqb_neq; lia).
  pose proof (floor_log2_range n d) as HL.
  set (L := Number.floor_log2 n d) in *.
  unfold Number.emin, Number.emax.
  assert (Hab : let '(a, b) := scale2 n d (Z.max (L - 52) (-1074)) in
                0 < b <= a).
  { destruct (Z.max_spec (L - 52) (-1074)) as [[_ ->] | [_ ->]].
    - unfold scale2. change (0 <=? -1074) with false. cbv iota.
      change (- -1074) with 1074. lia.
    - apply scale2_ge_one; lia. }
  destruct (scale2 n d _) as [a b].
  pose proof (round_half_even_pos a b Hab) as Hm.
  destruct (round_half_even a b =? 2 ^ 53);
    match goal with |- context [?x <? ?y] => destruct (x <? y) end;
    repeat split; trivial; reflexivity.
Qed.

Lemma of_ratio_is_number (neg : bool) (n d : Z) :
  is_number (Number.of_ratio neg n d).
Proof.
  unfold Number.of_ratio. destruct (n =? 0); [simpl; lia|].
  destruct (scale2 n d _) as [a b].
  destruct (round_half_even a b =? 2 ^ 53);
    match goal with |- context [?x <? ?y] => destruct (x <? y) end;
    simpl; lia.
Qed.

(** The sign of a difference tells the order of its operands. *)
Lemma sign_sub (x y : Number.t) :
  is_number x -> is_number y ->
  (Number.sign (Number.sub x y) = Gt -> ~ Number_le x y) /\
  (Number.sign (Number.sub x y) <> Gt -> Number_le x y).
Proof.
  destruct x as [|a|a m1 e1], y as [|b|b m2 e2]; try (simpl; tauto).
  - destruct a, b; simpl; intuition congruence.
  - destruct a; simpl; intuition congruence.
  - destruct b; simpl; intuition congruence.
  - cbn [is_number]. unfold Number.emin. intros He1 He2.
    cbn [Number.sub Number_le]. cbv zeta.
    set (e := Z.min e1 e2).
    set (z1 := Number.signed a m1 * 2 ^ (e1 - e)).
    set (z2 := Number.signed b m2 * 2 ^ (e2 - e)).
    destruct (Z.eqb_spec (z1 - z2) 0) as [Ez | Ez].
    + cbn [Number.sign Z.eqb]. split; [discriminate | lia].
    + unfold Number.of_dyadic.
      assert (He : -1074 <= e) by (unfold e; lia).
      assert (HN : 0 < 2 ^ Z.max e 0) by (apply Z.pow_pos_nonneg; lia).
      assert (HD : 0 < 2 ^ Z.max (- e) 0) by (apply Z.pow_pos_nonneg; lia).
      assert (HD' : 2 ^ Z.max (- e) 0 <= 2 ^ 1074)
        by (apply Z.pow_le_mono_r; lia).
      pose proof (of_ratio_nonzero (z1 - z2 <? 0)
                    (Z.abs (z1 - z2) * 2 ^ Z.max e 0) (2 ^ Z.max (- e) 0)
                    ltac:(nia) HD) as H.
      assert (Hmin : 2 ^ Z.max (- e) 0
                     <= Z.abs (z1 - z2) * 2 ^ Z.max e 0 * 2 ^ 1074).
      { assert (1 <= Z.abs (z1 - z2) * 2 ^ Z.max e 0) by nia.
        assert (0 < 2 ^ 1074) by (apply Z.pow_pos_nonneg; lia).
        nia. }
      specialize (H Hmin).
      destruct (Number.of_ratio _ _ _) as [|s|s m e']; [tauto|subst s|].
      * cbn [Number.sign].
        destruct (Z.ltb_spec (z1 - z2) 0); split; try discriminate;
          try congruence; lia.
      * destruct H as [-> Hm]. cbn [Number.sign].
        replace (m =? 0) with false by (symmetry; apply Z.eqb_neq; lia).
        destruct (Z.ltb_spec (z1 - z2) 0); split; try discriminate;
          try congruence; lia.
Qed.

Lemma scaled_le (s1 s2 e1 e2 E : Z) :
  E <= e1 -> E <= e2 ->
  s1 * 2 ^ (e1 - Z.min e1 e2) <= s2 * 2 ^ (e2 - Z.min e1 e2) <->
  s1 * 2 ^ (e1 - E) <= s2 * 2 ^ (e2 - E).
Proof.
  intros H1 H2. set (m := Z.min e1 e2).
  assert (Hm : E <= m /\ m <= e1 /\ m <= e2) by (unfold m; lia).
  replace (e1 - E) with (e1 - m + (m - E)) by lia.
  replace (e2 - E) with (e2 - m + (m - E)) by lia.
  rewrite !Z.pow_add_r, !Z.mul_assoc by lia.
  apply Z.mul_le_mono_pos_r. apply Z.pow_pos_nonneg; lia.
Qed.

Lemma Number_le_total (x y : Number.t) :
  is_number x -> is_number y -> Number_le x y \/ Number_le y x.
Proof.
  destruct x as [|a|a m1 e1], y as [|b|b m2 e2]; try (simpl; tauto);
    try (destruct a; simpl; tauto); try (destruct b; simpl; tauto);
    try (destruct a, b; simpl; tauto).
  intros _ _. cbn [Number_le]. cbv zeta. rewrite (Z.min_comm e2 e1). lia.
Qed.

Lemma Number_le_trans (x y z : Number.t) :
  Number_le x y -> Number_le y z -> Number_le x z.
Proof.
  destruct x as [|a|a m1 e1], y as [|b|b m2 e2], z as [|c|c m3 e3];
    try (simpl; tauto);
    try (destruct a; simpl; tauto); try (destruct b; simpl; tauto);
    try (destruct c; simpl; tauto);
    try (destruct a, b; simpl; tauto); try (destruct b, c; simpl; tauto);
    try (destruct a, c; simpl; tauto);
    try (destruct a, b, c; simpl; tauto).
  cbn [Number_le]. cbv zeta.
  set (E := Z.min e1 (Z.min e2 e3)).
  rewrite (scaled_le _ _ e1 e2 E), (scaled_le _ _ e2 e3 E),
          (scaled_le _ _ e1 e3 E) by (unfold E; lia).
  lia.
Qed.

Lemma parseFloat_is_number (x : BigNumber.t) :
  x <> BigNumber.NaN -> is_number (BigNumber.parseFloat x).
Proof.
  destruct x as [|neg|neg c e]; [congruence | simpl; trivial |].
  intros _. unfold BigNumber.parseFloat.
  destruct (c =? 0)%N; [simpl; lia|].
  apply of_ratio_is_number.
Qed.

Lemma by_profit_desc_le (a b : PerformanceEntry) :
  entry_profitAmount a <> BigNumber.NaN ->
  entry_profitAmount b <> BigNumber.NaN ->
  by_profit_desc a b = true <->
  Number_le (BigNumber.parseFloat (entry_profitAmount b))
            (BigNumber.parseFloat (entry_profitAmount a)).
Proof.
  intros Ha Hb. unfold by_profit_desc.
  destruct (sign_sub _ _ (parseFloat_is_number _ Hb)
                     (parseFloat_is_number _ Ha)) as [Hgt Hle].
  destruct (Number.sign _).
  - split; [intros _; apply Hle; discriminate | reflexivity].
  - split; [intros _; apply Hle; discriminate | reflexivity].
  - split; [discriminate | intros H; now destruct (Hgt eq_refl)].
Qed.

Section PerformanceOrder.
Context {models : Models}.

(** When the report answers and no profit amount is NaN, its entries are
    in descending order of [parseFloat(profitAmount)]: every entry is at
    least as large as all the entries after it. *)
Theorem fetchPerformance_sorted_by_profit (user : User) (db db' : Store)
        (performance : list PerformanceEntry) :
  fetchPerformance user db
    = (Responded (json 200 (SuccessPerformance performance)), db') ->
  Forall (fun entry => entry_profitAmount entry <> BigNumber.NaN)
         performance ->
  StronglySorted
    (fun a b => Number_le (BigNumber.parseFloat (entry_profitAmount b))
                          (BigNumber.parseFloat (entry_profitAmount a)))
    performance.
Proof.
  unfold fetchPerformance.
  destruct (first (investmentFundSettings db)) as [settings|]; [|discriminate].
  destruct (Promise_all _ _) as [e|entries]; [discriminate|].
  intros [= <- _] HP.
  assert (HP' : Forall (fun entry => entry_profitAmount entry <> BigNumber.NaN)
                       entries).
  { rewrite Forall_forall in HP |- *. intros y Hy. apply HP.
    now apply In_sort_by. }
  pose proof (sort_by_sorted_on by_profit_desc
                (fun entry => entry_profitAmount entry <> BigNumber.NaN)) as Hs.
  specialize (Hs ltac:(
    intros a b Ha Hb; rewrite !by_profit_desc_le by assumption;
    apply Number_le_total; now apply parseFloat_is_number)).
  specialize (Hs ltac:(
    intros a b c Ha Hb Hc; rewrite !by_profit_desc_le by assumption;
    intros H1 H2; exact (Number_le_trans _ _ _ H2 H1))).
  specialize (Hs entries HP').
  revert Hs HP. generalize (sort_by by_profit_desc entries). intros l Hs.
  induction Hs as [|a l Hl IH Ha]; intros HP; constructor.
  - apply IH. now apply Forall_cons_iff in HP as [_ HP].
  - apply Forall_cons_iff in HP as [Pa Pl].
    rewrite Forall_forall in Ha, Pl |- *. intros b Hb.
    apply by_profit_desc_le; auto.
Qed.

End PerformanceOrder.

(** Alice holds shares in both funds; fund 10 has made the larger
    profit and was updated last. *)
Definition two_funds_store : Store :=
  mkStore (investmentFunds sample_store)
          (investmentFundRequests sample_store)
          (balances sample_store)
          [ mkInvestmentFundShares 10 1 (bn "250");
            mkInvestmentFundShares 11 1 (bn "40") ]
          (investmentFundSettings sample_store).

Definition profit_by_fund (f : InvestmentFund) (userId : Id) (db : Store)
  : Exn + BigNumber.t :=
  if fund_id f =? 10 then inr (bn "5") else inr (bn "1").

Lemma fetchPerformance_sorted_by_profit_witness :
  StronglySorted
    (fun a b => Number_le (BigNumber.parseFloat (entry_profitAmount b))
                          (BigNumber.parseFloat (entry_profitAmount a)))
    match fst (@fetchPerformance (@spec_models sound_driver profit_by_fund)
                                 alice two_funds_store) with
    | Responded (mkResponse _ (SuccessPerformance l)) => l
    | _ => []
    end.
Proof.
  apply (@fetchPerformance_sorted_by_profit
           (@spec_models sound_driver profit_by_fund) alice two_funds_store
           two_funds_store).
  - by_computation.
  - vm_compute. repeat constructor; discriminate.
Defined.
